(** * Audio-Conversion: the conversion driver of [audio_converter.py]

    A shallow embedding of [AudioConverterApp.convert_file] and
    [AudioConverterApp.conversion_worker] together with the pieces of the
    form they read ([on_format_change], the option variables), and the
    properties of the command line, the failure classification and the batch
    loop that the specification states.

    Conventions of the embedding.
    - A Python [str] is the list of its code points ([list N]); literals are
      written as Rocq strings and decoded from UTF-8 by [lit].
    - Code that can raise returns a [result]; [try]/[except] is a match on it.
    - The world outside the program (child processes, the file system, the
      stop button pressed on the interface thread) is an abstract state
      threaded through the calls that touch it, behind the [Environment]
      interface; [pathlib] and [os.path], which depend on the platform, are
      behind the [Platform] interface.
    - Of the widgets only the log pane and the progress bar are kept: the
      status line, the buttons and the dialogs do not feed back into the
      driver. *)

From Stdlib Require Import List NArith ZArith Bool String Ascii Lia PeanoNat.
From Stdlib Require Import PrimFloat Uint63.
Import ListNotations.

(** ** Python strings *)

Module PyStr.

Local Open Scope N_scope.

Definition str := list N.

(** UTF-8 decoding of a literal of this file (every literal is well
    formed; malformed tails are dropped). *)
Fixpoint utf8 (bs : list N) : str :=
  match bs with
  | [] => []
  | b0 :: r0 =>
      if b0 <? 0x80 then b0 :: utf8 r0
      else match r0 with
      | [] => []
      | b1 :: r1 =>
          if b0 <? 0xE0 then ((b0 - 0xC0) * 64 + (b1 - 0x80)) :: utf8 r1
          else match r1 with
          | [] => []
          | b2 :: r2 =>
              if b0 <? 0xF0
              then ((b0 - 0xE0) * 4096 + (b1 - 0x80) * 64 + (b2 - 0x80)) :: utf8 r2
              else match r2 with
              | [] => []
              | b3 :: r3 =>
                  ((b0 - 0xF0) * 262144 + (b1 - 0x80) * 4096
                   + (b2 - 0x80) * 64 + (b3 - 0x80)) :: utf8 r3
              end
          end
      end
  end.

Definition lit (s : string) : str :=
  utf8 (map N_of_ascii (list_ascii_of_string s)).

(** [a == b] *)
Fixpoint eqb (a b : str) : bool :=
  match a, b with
  | [], [] => true
  | x :: a', y :: b' => (x =? y) && eqb a' b'
  | _, _ => false
  end.

(** [s.startswith(p)] *)
Fixpoint startswith (p s : str) : bool :=
  match p, s with
  | [], _ => true
  | x :: p', y :: s' => (x =? y) && startswith p' s'
  | _ :: _, [] => false
  end.

(** [needle in hay] *)
Fixpoint contains (needle hay : str) : bool :=
  startswith needle hay
  || match hay with
     | [] => false
     | _ :: t => contains needle t
     end.

(** [s.split('\n')]: never empty, [""] for the empty string. *)
Fixpoint split_nl (s : str) : list str :=
  match s with
  | [] => [[]]
  | c :: r =>
      if c =? 10 then [] :: split_nl r
      else match split_nl r with
           | l :: ls => (c :: l) :: ls
           | [] => [[c]]
           end
  end.

(** [c.isspace()]: the white space of CPython's Unicode database. *)
Definition isspace (c : N) : bool :=
  ((9 <=? c) && (c <=? 13)) || ((28 <=? c) && (c <=? 32))
  || (c =? 0x85) || (c =? 0xA0) || (c =? 0x1680)
  || ((0x2000 <=? c) && (c <=? 0x200A))
  || (c =? 0x2028) || (c =? 0x2029) || (c =? 0x202F)
  || (c =? 0x205F) || (c =? 0x3000).

Fixpoint lstrip (s : str) : str :=
  match s with
  | [] => []
  | c :: r => if isspace c then lstrip r else s
  end.

Definition rstrip (s : str) : str := rev (lstrip (rev s)).

(** [s.strip()] *)
Definition strip (s : str) : str := rstrip (lstrip s).

(** [s.lower()] and [s.upper()] on the ASCII letters. The full case tables
    touch other code points too, but no code point outside [A-Z]
    lower-cases to a letter of ["ffmpeg"], which is the only use of
    [lower], and [upper] is applied to the format names only. *)
Definition lower (s : str) : str :=
  map (fun c => if (65 <=? c) && (c <=? 90) then c + 32 else c) s.

Definition upper (s : str) : str :=
  map (fun c => if (97 <=? c) && (c <=? 122) then c - 32 else c) s.

Fixpoint digits (d : Decimal.uint) : str :=
  match d with
  | Decimal.Nil => []
  | Decimal.D0 d => 48 :: digits d
  | Decimal.D1 d => 49 :: digits d
  | Decimal.D2 d => 50 :: digits d
  | Decimal.D3 d => 51 :: digits d
  | Decimal.D4 d => 52 :: digits d
  | Decimal.D5 d => 53 :: digits d
  | Decimal.D6 d => 54 :: digits d
  | Decimal.D7 d => 55 :: digits d
  | Decimal.D8 d => 56 :: digits d
  | Decimal.D9 d => 57 :: digits d
  end.

(** [str(n)] for a non-negative [int]. *)
Definition of_nat (n : nat) : str := digits (N.to_uint (N.of_nat n)).

(** [c * n] for a one-character string. *)
Definition times (c : str) (n : nat) : str := List.concat (repeat c n).

End PyStr.

Import PyStr.

(** ** Exceptions *)

Inductive exn : Type :=
| TimeoutExpired (message : str)   (* [subprocess.TimeoutExpired] *)
| Exception (message : str).       (* any other [Exception] *)

(** [str(e)] *)
Definition exn_str (e : exn) : str :=
  match e with
  | TimeoutExpired message => message
  | Exception message => message
  end.

Inductive result (A : Type) : Type :=
| Return (a : A)
| Raise (e : exn).

Arguments Return {A} a.
Arguments Raise {A} e.

Definition bind {A B} (c : result A) (k : A -> result B) : result B :=
  match c with
  | Return a => k a
  | Raise e => Raise e
  end.

Notation "x <- c ;; k" := (bind c (fun x => k))
  (at level 61, c at next level, right associativity).

Definition IndexError : exn := Exception (lit "list index out of range").

(** [l[-1]] *)
Definition last_item {A} (l : list A) : result A :=
  match l with
  | [] => Raise IndexError
  | x :: r => Return (last r x)
  end.

(** ** What the program stands on *)

(** [subprocess.CompletedProcess], as far as [convert_file] reads it:
    [stderr] is the captured standard error after
    [.decode('utf-8', errors='ignore')]. *)
Record CompletedProcess : Type := {
  returncode : Z;
  stderr : str
}.

(** [pathlib] and [os.path]: [Path(p).stem], [Path(p).name], [str(Path(p))]
    and [os.path.join(a, b)]. *)
Class Platform : Type := {
  path_stem : str -> str;
  path_name : str -> str;
  path_str : str -> str;
  os_path_join : str -> str -> str
}.

(** The calls that leave the program. [subprocess_run cmd timeout] is
    [subprocess.run(cmd, stdout=PIPE, stderr=PIPE, env=env, timeout=timeout)]
    (the search path prepared for it and the window flags of the [nt] branch
    belong to the world); [os_remove] is [os.remove]; [os_access_W_OK d] is
    [os.access(d, os.W_OK)]; [is_converting] reads the flag that
    [stop_conversion] clears from the interface thread. *)
Class Environment (World : Type) : Type := {
  subprocess_run : list str -> N -> World -> result CompletedProcess * World;
  os_remove : str -> World -> result unit * World;
  os_access_W_OK : str -> World -> bool;
  is_converting : World -> bool
}.

(** The fields of [AudioConverterApp] that the driver reads; the three
    [tk] variables are given by their value. *)
Record AudioConverterApp : Type := {
  file_list : list str;
  output_dir : str;
  output_format_var : str;
  quality_var : str;
  delete_original_var : bool
}.

(** ** The form: formats and their quality entries *)

(** The values of the format combobox ([create_widgets]). *)
Definition format_values : list str :=
  [lit "mp3"; lit "flac"; lit "wav"; lit "ogg"; lit "m4a"; lit "aac"; lit "wma"].

(** [on_format_change]: the entries the quality combobox offers once a
    format is selected. The box is read-only, so these are the only values
    [quality_var] takes together with that format. (For a string that is no
    format of the form the source leaves the box as it is; the format box is
    read-only too, so no such string is ever selected.) *)
Definition quality_values (output_format : str) : list str :=
  if existsb (eqb output_format) [lit "mp3"; lit "m4a"; lit "aac"; lit "wma"] then
    if eqb output_format (lit "mp3") then
      [lit "高质量 (192 kbps)"; lit "中等质量 (128 kbps)"; lit "低质量 (64 kbps)"]
    else if eqb output_format (lit "m4a") then
      [lit "高质量 (256 kbps)"; lit "中等质量 (192 kbps)"; lit "低质量 (128 kbps)"]
    else if eqb output_format (lit "aac") then
      [lit "高质量 (192 kbps)"; lit "中等质量 (128 kbps)"; lit "低质量 (64 kbps)"]
    else
      [lit "高质量 (192 kbps)"; lit "中等质量 (128 kbps)"; lit "低质量 (64 kbps)"]
  else if existsb (eqb output_format) [lit "flac"; lit "wav"] then
    [lit "无损 (原始音质)"; lit "高质量 (48kHz)"; lit "标准质量 (44.1kHz)"]
  else if eqb output_format (lit "ogg") then
    [lit "高质量 (256 kbps)"; lit "中等质量 (192 kbps)"; lit "低质量 (128 kbps)"]
  else [].

(** ** [convert_file] *)

Section ConvertFile.

Context {platform : Platform}.

(** Lines 446-449: where the converted file goes. *)
Definition output_path (self : AudioConverterApp) (input_file : str) : str :=
  let output_format := output_format_var self in
  os_path_join (output_dir self) (path_stem input_file ++ lit "." ++ output_format).

(** Lines 452-518: the command line. *)
Definition build_cmd (self : AudioConverterApp) (input_file : str) : list str :=
  let output_format := output_format_var self in
  let output_file := output_path self input_file in
  let cmd := [lit "ffmpeg"; lit "-y"; lit "-i"; input_file; lit "-vn"] in
  let quality := quality_var self in
  let cmd :=
    if eqb output_format (lit "mp3") then
      let cmd := cmd ++ [lit "-codec:a"; lit "libmp3lame"] in
      if contains (lit "高质量") quality then cmd ++ [lit "-b:a"; lit "192k"]
      else if contains (lit "中等质量") quality then cmd ++ [lit "-b:a"; lit "128k"]
      else cmd ++ [lit "-b:a"; lit "64k"]
    else if eqb output_format (lit "flac") then
      let cmd := cmd ++ [lit "-codec:a"; lit "flac"] in
      if negb (contains (lit "无损") quality) then
        if contains (lit "高质量") quality then cmd ++ [lit "-ar"; lit "48000"]
        else cmd ++ [lit "-ar"; lit "44100"]
      else cmd
    else if eqb output_format (lit "wav") then
      let cmd := cmd ++ [lit "-codec:a"; lit "pcm_s16le"] in
      if negb (contains (lit "无损") quality) then
        if contains (lit "高质量") quality then cmd ++ [lit "-ar"; lit "48000"]
        else cmd ++ [lit "-ar"; lit "44100"]
      else cmd
    else if eqb output_format (lit "ogg") then
      let cmd := cmd ++ [lit "-codec:a"; lit "libvorbis"] in
      if contains (lit "高质量") quality then cmd ++ [lit "-b:a"; lit "256k"]
      else if contains (lit "中等质量") quality then cmd ++ [lit "-b:a"; lit "192k"]
      else cmd ++ [lit "-b:a"; lit "128k"]
    else if eqb output_format (lit "m4a") then
      let cmd := cmd ++ [lit "-vn"] in
      let cmd := cmd ++ [lit "-f"; lit "mov"] in
      let cmd := cmd ++ [lit "-codec:a"; lit "aac"] in
      if contains (lit "高质量") quality then cmd ++ [lit "-b:a"; lit "256k"]
      else if contains (lit "中等质量") quality then cmd ++ [lit "-b:a"; lit "192k"]
      else cmd ++ [lit "-b:a"; lit "128k"]
    else if eqb output_format (lit "aac") then
      let cmd := cmd ++ [lit "-codec:a"; lit "aac"] in
      if contains (lit "高质量") quality then cmd ++ [lit "-b:a"; lit "192k"]
      else if contains (lit "中等质量") quality then cmd ++ [lit "-b:a"; lit "128k"]
      else cmd ++ [lit "-b:a"; lit "64k"]
    else if eqb output_format (lit "wma") then
      let cmd := cmd ++ [lit "-codec:a"; lit "wmav2"] in
      if contains (lit "高质量") quality then cmd ++ [lit "-b:a"; lit "192k"]
      else if contains (lit "中等质量") quality then cmd ++ [lit "-b:a"; lit "128k"]
      else cmd ++ [lit "-b:a"; lit "64k"]
    else cmd in
  cmd ++ [output_file].

(** Lines 571-592: the branch of a non-zero return code, on the decoded
    standard error. *)
Definition failure_message (error_msg : str) : result (bool * str) :=
  if contains (lit "Invalid data") error_msg then
    Return (false, lit "输入文件数据无效或损坏")
  else if contains (lit "Permission denied") error_msg then
    Return (false, lit "权限被拒绝，无法写入文件")
  else if contains (lit "No space left") error_msg then
    Return (false, lit "磁盘空间不足")
  else if contains (lit "Error") error_msg then
    match find (fun line => contains (lit "Error") line
                            && negb (contains (lit "ffmpeg") (lower line)))
               (split_nl error_msg) with
    | Some line => Return (false, lit "FFmpeg错误: " ++ strip line)
    | None =>
        tail <- last_item (split_nl error_msg) ;;
        Return (false, lit "FFmpeg错误: " ++ strip tail)
    end
  else
    last_line <-
      (match error_msg with
       | _ :: _ =>
           last_item (filter (fun l => negb (eqb (strip l) [])) (split_nl error_msg))
       | [] => Return (lit "未知错误")
       end) ;;
    Return (false, lit "转换失败: " ++ last_line).

Context {World : Type} {environment : Environment World}.

(** Lines 443-597. The [try] block is [attempt]; the two handlers are the
    final match. *)
Definition convert_file (self : AudioConverterApp) (input_file : str) (w : World)
  : (bool * str) * World :=
  let output_file := output_path self input_file in
  let cmd := build_cmd self input_file in
  let (ran, w') := subprocess_run cmd 300 w in
  let attempt :=
    result <- ran ;;
    if (returncode result =? 0)%Z then Return (true, output_file)
    else failure_message (stderr result) in
  (match attempt with
   | Return r => r
   | Raise (TimeoutExpired _) => (false, lit "转换超时")
   | Raise (Exception _ as e) => (false, lit "错误: " ++ exn_str e)
   end, w').

End ConvertFile.

(** ** [conversion_worker] *)

(** The tags of the log pane. *)
Inductive tag : Type := success | error | info | warning.

(** What a run leaves behind: the lines of the log pane in the order they
    were inserted, the values given to the progress bar, the two tallies of
    the source, and [outcomes], a ghost history of what [convert_file]
    returned for each file the loop reached. *)
Record Run : Type := {
  log_text : list (str * tag);
  progress_var : list float;
  converted_files : nat;
  failed_files : list (str * str);
  outcomes : list (str * (bool * str))
}.

Definition started : Run :=
  {| log_text := []; progress_var := []; converted_files := 0;
     failed_files := []; outcomes := [] |}.

(** [self.log(message, tag)] *)
Definition log (st : Run) (message : str) (t : tag) : Run :=
  {| log_text := log_text st ++ [(message, t)];
     progress_var := progress_var st;
     converted_files := converted_files st;
     failed_files := failed_files st;
     outcomes := outcomes st |}.

(** [self.progress_var.set(progress)] *)
Definition set_progress (st : Run) (progress : float) : Run :=
  {| log_text := log_text st;
     progress_var := progress_var st ++ [progress];
     converted_files := converted_files st;
     failed_files := failed_files st;
     outcomes := outcomes st |}.

(** [converted_files += 1] *)
Definition count_converted (st : Run) : Run :=
  {| log_text := log_text st;
     progress_var := progress_var st;
     converted_files := converted_files st + 1;
     failed_files := failed_files st;
     outcomes := outcomes st |}.

(** [failed_files.append(entry)] *)
Definition append_failed (st : Run) (entry : str * str) : Run :=
  {| log_text := log_text st;
     progress_var := progress_var st;
     converted_files := converted_files st;
     failed_files := failed_files st ++ [entry];
     outcomes := outcomes st |}.

Definition remember (st : Run) (input_file : str) (returned : bool * str) : Run :=
  {| log_text := log_text st;
     progress_var := progress_var st;
     converted_files := converted_files st;
     failed_files := failed_files st;
     outcomes := outcomes st ++ [(input_file, returned)] |}.

(** An [int] below [2^53] as a [float]. *)
Definition float_of_nat (n : nat) : float :=
  PrimFloat.of_uint63 (Uint63.of_Z (Z.of_nat n)).

(** Line 681: [((i + 1) / total_files) * 100]. *)
Definition percentage (i total_files : nat) : float :=
  PrimFloat.mul (PrimFloat.div (float_of_nat (i + 1)) (float_of_nat total_files))
                (float_of_nat 100).

Definition nl : str := [10%N].

Definition rule : str := times (lit "=") 60.

Section ConversionWorker.

Context {platform : Platform} {World : Type} {environment : Environment World}.

Variable self : AudioConverterApp.

(** Lines 653-683: the body of the loop for the file at index [i]. The
    handler of lines 685-687 has nothing to catch here: [convert_file]
    handles its own exceptions, and the log pane and the progress bar are
    written without failure. *)
Definition convert_one (total_files : nat) (delete_original : bool)
    (output_format : str) (i : nat) (input_file : str) (st : Run) (w : World)
  : Run * World :=
  let file_name := path_name input_file in
  let st := log st (nl ++ lit "[" ++ of_nat (i + 1) ++ lit "/" ++ of_nat total_files
                    ++ lit "] 🎵 " ++ file_name ++ lit " → " ++ upper output_format)
                info in
  let (returned, w) := convert_file self input_file w in
  let st := remember st input_file returned in
  let (ok, message) := returned in
  let (st, w) :=
    if ok then
      let st := count_converted st in
      let output_path := path_str message in
      let st := log st (lit "  ✅ 转换成功") success in
      let st := log st (lit "  💾 保存位置: " ++ output_path) info in
      if delete_original then
        let (removed, w) := os_remove input_file w in
        match removed with
        | Return _ => (log st (lit "  🗑️ 已删除原文件") warning, w)
        | Raise e => (log st (lit "  ❌ 删除原文件失败: " ++ exn_str e) error, w)
        end
      else (st, w)
    else
      let st := append_failed st (file_name, message) in
      (log st (lit "  ❌ 转换失败: " ++ message) error, w) in
  let progress := percentage i total_files in
  (set_progress st progress, w).

(** Lines 648-687: [for i, input_file in enumerate(self.file_list)], from
    index [i] on. *)
Fixpoint convert_from (total_files : nat) (delete_original : bool)
    (output_format : str) (i : nat) (files : list str) (st : Run) (w : World)
  : Run * World :=
  match files with
  | [] => (st, w)
  | input_file :: rest =>
      if negb (is_converting w) then
        (log st (lit "⚠️ 转换已取消") warning, w)
      else
        let (st, w) :=
          convert_one total_files delete_original output_format i input_file st w in
        convert_from total_files delete_original output_format (S i) rest st w
  end.

(** Lines 701-704: the list of failures at the end of the log. *)
Definition log_failures (st : Run) : Run :=
  match failed_files st with
  | [] => st
  | _ :: _ =>
      fold_left
        (fun st entry =>
           log st (lit "  • " ++ fst entry ++ lit ": " ++ snd entry) error)
        (failed_files st)
        (log st (nl ++ lit "❌ 失败的文件:") error)
  end.

(** Lines 623-706. *)
Definition conversion_worker (w : World) : Run * World :=
  let total_files := List.length (file_list self) in
  let delete_original := delete_original_var self in
  let output_format := output_format_var self in
  let st := log started rule info in
  let st := log st (lit "🚀 开始转换 " ++ of_nat total_files ++ lit " 个文件...") info in
  let st := log st (lit "📝 输出格式: " ++ upper output_format) info in
  let st := log st (lit "📁 输出目录: " ++ output_dir self) info in
  let st := log st rule info in
  if negb (os_access_W_OK (output_dir self) w) then
    (log st (lit "❌ 错误: 输出目录不可写 - " ++ output_dir self) error, w)
  else
    let (st, w) :=
      convert_from total_files delete_original output_format 0 (file_list self) st w in
    let st := log st (nl ++ rule) info in
    let st := log st (lit "🎉 转换完成！") info in
    let st := log st (lit "📊 成功: " ++ of_nat (converted_files st)
                      ++ lit " 个  ❌ 失败: " ++ of_nat (List.length (failed_files st))
                      ++ lit " 个") info in
    let st := log st rule info in
    (log_failures st, w).

End ConversionWorker.

(** ** The vocabulary of the specification *)

(** The failure reasons of the specification, and the message by which
    [convert_file] reports each of them. *)
Inductive FailureReason : Type :=
| InvalidInputData
| PermissionDenied
| DiskFull
| EncoderError (line : str)
| Timeout
| UnexpectedError (message : str)
| UnknownFailure (line : str).

Definition reason_text (r : FailureReason) : str :=
  match r with
  | InvalidInputData => lit "输入文件数据无效或损坏"
  | PermissionDenied => lit "权限被拒绝，无法写入文件"
  | DiskFull => lit "磁盘空间不足"
  | EncoderError line => lit "FFmpeg错误: " ++ line
  | Timeout => lit "转换超时"
  | UnexpectedError message => lit "错误: " ++ message
  | UnknownFailure line => lit "转换失败: " ++ line
  end.

Inductive ConversionOutcome : Type :=
| Success (output_path : str)
| Failure (reason : FailureReason).

(** The pair [convert_file] returns for an outcome. *)
Definition returned (o : ConversionOutcome) : bool * str :=
  match o with
  | Success output_path => (true, output_path)
  | Failure reason => (false, reason_text reason)
  end.

(** The test of line 583 on one line of the standard error. *)
Definition error_line (line : str) : bool :=
  contains (lit "Error") line && negb (contains (lit "ffmpeg") (lower line)).

(** The test of line 591: [l.strip()] is empty. *)
Definition blank (l : str) : bool := eqb (strip l) [].

Inductive QualityTier : Type := high | medium | low | lossless | standard.

(** The tier an entry of the quality box names, by its label. *)
Definition tier_of_entry (quality : str) : option QualityTier :=
  if startswith (lit "无损") quality then Some lossless
  else if startswith (lit "高质量") quality then Some high
  else if startswith (lit "中等质量") quality then Some medium
  else if startswith (lit "低质量") quality then Some low
  else if startswith (lit "标准质量") quality then Some standard
  else None.

(** Every entry the quality box can ever show. *)
Definition all_entries : list str := flat_map quality_values format_values.

(** The profile table as the specification words it: the quality flags of
    each tier of each format; [None] where the format has no such tier. *)
Definition profile_flags (output_format : str) (t : QualityTier) : option (list str) :=
  if existsb (eqb output_format) [lit "mp3"; lit "aac"; lit "wma"] then
    match t with
    | high => Some [lit "-b:a"; lit "192k"]
    | medium => Some [lit "-b:a"; lit "128k"]
    | low => Some [lit "-b:a"; lit "64k"]
    | _ => None
    end
  else if existsb (eqb output_format) [lit "m4a"; lit "ogg"] then
    match t with
    | high => Some [lit "-b:a"; lit "256k"]
    | medium => Some [lit "-b:a"; lit "192k"]
    | low => Some [lit "-b:a"; lit "128k"]
    | _ => None
    end
  else if existsb (eqb output_format) [lit "flac"; lit "wav"] then
    match t with
    | lossless => Some []
    | high => Some [lit "-ar"; lit "48000"]
    | standard => Some [lit "-ar"; lit "44100"]
    | _ => None
    end
  else None.

(** The flags that select the container and the codec of a format. *)
Definition profile_codec (output_format : str) : list str :=
  if eqb output_format (lit "mp3") then [lit "-codec:a"; lit "libmp3lame"]
  else if eqb output_format (lit "flac") then [lit "-codec:a"; lit "flac"]
  else if eqb output_format (lit "wav") then [lit "-codec:a"; lit "pcm_s16le"]
  else if eqb output_format (lit "ogg") then [lit "-codec:a"; lit "libvorbis"]
  else if eqb output_format (lit "m4a") then
    [lit "-vn"; lit "-f"; lit "mov"; lit "-codec:a"; lit "aac"]
  else if eqb output_format (lit "aac") then [lit "-codec:a"; lit "aac"]
  else if eqb output_format (lit "wma") then [lit "-codec:a"; lit "wmav2"]
  else [].

(** [self] with another entry selected in the quality box. *)
Definition with_quality (self : AudioConverterApp) (quality : str) : AudioConverterApp :=
  {| file_list := file_list self;
     output_dir := output_dir self;
     output_format_var := output_format_var self;
     quality_var := quality;
     delete_original_var := delete_original_var self |}.

(** Whether a recorded conversion succeeded. *)
Definition succeeded (o : str * (bool * str)) : bool := fst (snd o).

Definition cancel_line : str * tag := (lit "⚠️ 转换已取消", warning).

(** A line of the log pane that is neither an error nor a warning. *)
Definition quiet (entry : str * tag) : bool :=
  match snd entry with
  | info | success => true
  | error | warning => false
  end.

(** An encoder that exits 0 whatever it is asked and whenever. *)
Definition always_exits_0 {World : Type} {environment : Environment World} : Prop :=
  forall cmd (w : World),
  exists r, fst (subprocess_run cmd 300 w) = Return r /\ returncode r = 0%Z.

(** ** The worlds the loop sees at its job boundaries *)

Section Boundaries.

Context {platform : Platform} {World : Type} {environment : Environment World}.

Variable self : AudioConverterApp.

(** The world one pass of the loop body leaves behind. *)
Definition after_job (input_file : str) (w : World) : World :=
  snd (convert_one self 0 (delete_original_var self) (output_format_var self)
                   0 input_file started w).

(** The world in which the loop tests the flag for the file at index [k]. *)
Fixpoint boundary (k : nat) (files : list str) (w : World) : World :=
  match k, files with
  | S k', input_file :: rest => boundary k' rest (after_job input_file w)
  | _, _ => w
  end.

(** The lines one pass of the loop body adds to the log pane. *)
Definition job_log (total_files : nat) (output_format : str) (i : nat)
    (input_file : str) (w : World) : list (str * tag) :=
  let header :=
    (nl ++ lit "[" ++ of_nat (i + 1) ++ lit "/" ++ of_nat total_files
     ++ lit "] 🎵 " ++ path_name input_file ++ lit " → " ++ upper output_format, info) in
  let (returned, w1) := convert_file self input_file w in
  let (ok, message) := returned in
  if ok then
    [header; (lit "  ✅ 转换成功", success);
     (lit "  💾 保存位置: " ++ path_str message, info)]
    ++ (if delete_original_var self then
          match fst (os_remove input_file w1) with
          | Return _ => [(lit "  🗑️ 已删除原文件", warning)]
          | Raise e => [(lit "  ❌ 删除原文件失败: " ++ exn_str e, error)]
          end
        else [])
  else [header; (lit "  ❌ 转换失败: " ++ message, error)].

(** The lines the loop adds for [files], converted one after the other
    from index [i] and world [w] on. *)
Fixpoint job_logs (total_files : nat) (output_format : str) (i : nat)
    (files : list str) (w : World) : list (str * tag) :=
  match files with
  | [] => []
  | input_file :: rest =>
      job_log total_files output_format i input_file w
      ++ job_logs total_files output_format (S i) rest (after_job input_file w)
  end.

(** Lines 631-635: the lines a run opens its log with. *)
Definition opening_log : list (str * tag) :=
  [(rule, info);
   (lit "🚀 开始转换 " ++ of_nat (List.length (file_list self)) ++ lit " 个文件...", info);
   (lit "📝 输出格式: " ++ upper (output_format_var self), info);
   (lit "📁 输出目录: " ++ output_dir self, info);
   (rule, info)].

(** What [convert_file] returns for each of [files] when they are
    converted one after the other from [w] on. *)
Fixpoint results (files : list str) (w : World) : list (str * (bool * str)) :=
  match files with
  | [] => []
  | input_file :: rest =>
      (input_file, fst (convert_file self input_file w))
      :: results rest (after_job input_file w)
  end.

(** The entry [failed_files] gets for a failed conversion. *)
Definition failed_entry (o : str * (bool * str)) : str * str :=
  (path_name (fst o), snd (snd o)).

(** The stop button is not seen at any job boundary of the run. *)
Definition never_cancelled (files : list str) (w : World) : Prop :=
  forall j, j < List.length files -> is_converting (boundary j files w) = true.

(** The stop button is seen after exactly [k] jobs. *)
Definition cancelled_after (k : nat) (files : list str) (w : World) : Prop :=
  k < List.length files
  /\ (forall j, j < k -> is_converting (boundary j files w) = true)
  /\ is_converting (boundary k files w) = false.

End Boundaries.

(** ** A POSIX platform and scripted environments, for concrete runs *)

Module Posix.

(** [s.split('/')] *)
Fixpoint split_sep (s : str) : list str :=
  match s with
  | [] => [[]]
  | c :: r =>
      if (c =? 47)%N then [] :: split_sep r
      else match split_sep r with
           | l :: ls => (c :: l) :: ls
           | [] => [[c]]
           end
  end.

(** The components of [PurePosixPath(p)] below its root. *)
Definition parts (p : str) : list str :=
  filter (fun c => negb (eqb c []) && negb (eqb c (lit "."))) (split_sep p).

Definition name (p : str) : str := last (parts p) [].

(** [s.rfind('.')] *)
Fixpoint rfind_dot (s : str) : option nat :=
  match s with
  | [] => None
  | c :: r =>
      match rfind_dot r with
      | Some i => Some (S i)
      | None => if (c =? 46)%N then Some 0 else None
      end
  end.

Definition stem (p : str) : str :=
  let n := name p in
  match rfind_dot n with
  | Some i => if (0 <? i) && (i <? List.length n - 1) then firstn i n else n
  | None => n
  end.

Fixpoint join_sep (l : list str) : str :=
  match l with
  | [] => []
  | [x] => x
  | x :: r => x ++ lit "/" ++ join_sep r
  end.

Definition to_str (p : str) : str :=
  let root :=
    if startswith (lit "//") p && negb (startswith (lit "///") p) then lit "//"
    else if startswith (lit "/") p then lit "/"
    else [] in
  match root ++ join_sep (parts p) with
  | [] => lit "."
  | s => s
  end.

(** [posixpath.join(a, b)] *)
Definition join (a b : str) : str :=
  if startswith (lit "/") b then b
  else match rev a with
       | [] => b
       | c :: _ => if (c =? 47)%N then a ++ b else a ++ lit "/" ++ b
       end.

#[export] Instance platform : Platform :=
  {| path_stem := stem; path_name := name; path_str := to_str; os_path_join := join |}.

End Posix.

Module Stub.

(** A scripted outside: what the encoder and [os.remove] answer, whether
    the output directory is writable, and after how many encoder runs the
    stop button is pressed ([None]: never). The world counts the encoder
    runs. *)
Record script : Type := {
  encoder : list str -> result CompletedProcess;
  removal : str -> result unit;
  writable : bool;
  stop_after : option nat
}.

Definition environment (s : script) : Environment nat :=
  {| subprocess_run := fun cmd _ w => (encoder s cmd, S w);
     os_remove := fun p w => (removal s p, w);
     os_access_W_OK := fun _ _ => writable s;
     is_converting := fun w =>
       match stop_after s with
       | Some k => w <? k
       | None => true
       end |}.

Definition exits (code : Z) (err : str) : list str -> result CompletedProcess :=
  fun _ => Return {| returncode := code; stderr := err |}.

(** An encoder that always exits 0, a removal that always succeeds. *)
Definition ok : script :=
  {| encoder := exits 0 []; removal := fun _ => Return tt;
     writable := true; stop_after := None |}.

Definition failing (code : Z) (err : str) : script :=
  {| encoder := exits code err; removal := fun _ => Return tt;
     writable := true; stop_after := None |}.

Definition unremovable : script :=
  {| encoder := exits 0 [];
     removal := fun _ => Raise (Exception (lit "[Errno 13] Permission denied"));
     writable := true; stop_after := None |}.

Definition stopped_after (k : nat) : script :=
  {| encoder := exits 0 []; removal := fun _ => Return tt;
     writable := true; stop_after := Some k |}.

Definition app (files : list str) (output_format quality : str) (delete : bool)
  : AudioConverterApp :=
  {| file_list := files; output_dir := lit "/home/u/音乐";
     output_format_var := output_format; quality_var := quality;
     delete_original_var := delete |}.

End Stub.

(** * The rest of the form *)

(** ** More of Python's strings *)

(** [bool(s)] *)
Definition nonempty (s : str) : bool :=
  match s with
  | [] => false
  | _ :: _ => true
  end.

(** [s.endswith(p)] *)
Definition endswith (p s : str) : bool := startswith (rev p) (rev s).

(** [s[1:-1]] *)
Definition slice_1_m1 (s : str) : str := removelast (tl s).

(** [s.split(sep)] for a one-character [sep]. *)
Fixpoint split_at (sep : N) (s : str) : list str :=
  match s with
  | [] => [[]]
  | c :: r =>
      if (c =? sep)%N then [] :: split_at sep r
      else match split_at sep r with
           | l :: ls => (c :: l) :: ls
           | [] => [[c]]
           end
  end.

(** [s.split()]: the maximal runs without white space. *)
Fixpoint split_ws (s : str) : list str :=
  match s with
  | [] => []
  | c :: r =>
      if isspace c then split_ws r
      else match r with
           | [] => [[c]]
           | d :: _ =>
               if isspace d then [c] :: split_ws r
               else match split_ws r with
                    | word :: words => (c :: word) :: words
                    | [] => [[c]]
                    end
           end
  end.

(** ** [get_quality_bitrate] *)

(** Lines 433-441. *)
Definition get_quality_bitrate (self : AudioConverterApp) : str :=
  let quality := quality_var self in
  if contains (lit "高质量") quality then lit "192"
  else if contains (lit "中等质量") quality then lit "128"
  else lit "64".

(** ** The two option boxes *)

(** The format box, the quality box and the entries the quality box
    offers. *)
Record Form : Type := {
  format_box : str;
  quality_box : str;
  quality_box_values : list str
}.

(** Lines 182-214 of [create_widgets]: the form as it opens. *)
Definition opening_form : Form :=
  {| format_box := lit "mp3";
     quality_box := lit "高质量 (192 kbps)";
     quality_box_values :=
       [lit "高质量 (192 kbps)"; lit "中等质量 (128 kbps)"; lit "低质量 (64 kbps)"] |}.

Definition set_quality (form : Form) (quality : str) (values : list str) : Form :=
  {| format_box := format_box form;
     quality_box := quality;
     quality_box_values := values |}.

(** Lines 300-332. *)
Definition on_format_change (form : Form) : Form :=
  let output_format := format_box form in
  if existsb (eqb output_format) [lit "mp3"; lit "m4a"; lit "aac"; lit "wma"] then
    if eqb output_format (lit "mp3") then
      set_quality form (lit "高质量 (192 kbps)")
        [lit "高质量 (192 kbps)"; lit "中等质量 (128 kbps)"; lit "低质量 (64 kbps)"]
    else if eqb output_format (lit "m4a") then
      set_quality form (lit "高质量 (256 kbps)")
        [lit "高质量 (256 kbps)"; lit "中等质量 (192 kbps)"; lit "低质量 (128 kbps)"]
    else if eqb output_format (lit "aac") then
      set_quality form (lit "高质量 (192 kbps)")
        [lit "高质量 (192 kbps)"; lit "中等质量 (128 kbps)"; lit "低质量 (64 kbps)"]
    else if eqb output_format (lit "wma") then
      set_quality form (lit "高质量 (192 kbps)")
        [lit "高质量 (192 kbps)"; lit "中等质量 (128 kbps)"; lit "低质量 (64 kbps)"]
    else form
  else if existsb (eqb output_format) [lit "flac"; lit "wav"] then
    set_quality form (lit "无损 (原始音质)")
      [lit "无损 (原始音质)"; lit "高质量 (48kHz)"; lit "标准质量 (44.1kHz)"]
  else if eqb output_format (lit "ogg") then
    set_quality form (lit "高质量 (256 kbps)")
      [lit "高质量 (256 kbps)"; lit "中等质量 (192 kbps)"; lit "低质量 (128 kbps)"]
  else form.

(** What the user can do to the two boxes, both read-only: pick a format of
    the format box, which stores it and fires [on_format_change] (line
    191), or pick one of the entries the quality box offers. *)
Inductive pick : Form -> Form -> Prop :=
| pick_format (form : Form) (output_format : str) :
    In output_format format_values ->
    pick form (on_format_change
                 {| format_box := output_format;
                    quality_box := quality_box form;
                    quality_box_values := quality_box_values form |})
| pick_quality (form : Form) (quality : str) :
    In quality (quality_box_values form) ->
    pick form (set_quality form quality (quality_box_values form)).

(** The forms the user can bring about. *)
Inductive reachable : Form -> Prop :=
| reachable_opening : reachable opening_form
| reachable_pick (form form' : Form) :
    reachable form -> pick form form' -> reachable form'.

(** [self] with the two boxes as in [form]. *)
Definition with_form (self : AudioConverterApp) (form : Form) : AudioConverterApp :=
  {| file_list := file_list self;
     output_dir := output_dir self;
     output_format_var := format_box form;
     quality_var := quality_box form;
     delete_original_var := delete_original_var self |}.

(** ** [on_drop]: the dropped paths *)

(** Lines 341-359: the paths [on_drop] goes on to test, from the text of
    the drop event; [nt] is [os.name == 'nt']. *)
Definition dropped_paths (nt : bool) (data : str) : list str :=
  let files_str :=
    if startswith (lit "{") data && endswith (lit "}") data then slice_1_m1 data
    else data in
  let files := if nt then split_at 125 files_str else split_ws files_str in
  filter nonempty (map strip files).

(** ** [convert_file]: the search path of the encoder *)

Section SearchPath.

Context {platform : Platform}.

(** [os.environ.get(name, '')] *)
Variable environ_get : str -> str.

(** [os.path.exists] *)
Variable os_path_exists : str -> bool.

(** [os.pathsep] *)
Variable os_pathsep : str.

(** Lines 532-537; [os.path.join] of three and more parts is the join of
    the joins. *)
Definition ffmpeg_paths : list str :=
  let user_path := environ_get (lit "USERPROFILE") in
  [os_path_join (os_path_join user_path (lit "scoop")) (lit "shims");
   os_path_join
     (os_path_join
        (os_path_join
           (os_path_join (os_path_join user_path (lit "AppData")) (lit "Local"))
           (lit "Microsoft"))
        (lit "WinGet"))
     (lit "Packages");
   os_path_join (os_path_join (environ_get (lit "LOCALAPPDATA")) (lit "Programs"))
                (lit "ffmpeg");
   os_path_join (os_path_join (environ_get (lit "PROGRAMFILES")) (lit "ffmpeg"))
                (lit "bin")].

(** Lines 539-541: the loop over the candidate directories. *)
Definition prepend_paths (paths : list str) (system_path : str) : str :=
  fold_left
    (fun system_path path =>
       if os_path_exists path && negb (contains path system_path)
       then path ++ os_pathsep ++ system_path
       else system_path)
    paths system_path.

(** Lines 527-543: the value of [env['PATH']]. *)
Definition env_PATH : str := prepend_paths ffmpeg_paths (environ_get (lit "PATH")).

End SearchPath.

(** [picked] is [all] with some of its items left out, the others in
    their order. *)
Inductive subsequence {A : Type} : list A -> list A -> Prop :=
| sub_nil : subsequence [] []
| sub_skip : forall x picked all, subsequence picked all -> subsequence picked (x :: all)
| sub_take : forall x picked all,
    subsequence picked all -> subsequence (x :: picked) (x :: all).

(** ** The end of the log *)

(** Lines 701-704 as a list of lines: nothing when no file failed, else a
    heading and one line for each failed file. *)
Definition failure_report (failed : list (str * str)) : list (str * tag) :=
  match failed with
  | [] => []
  | _ :: _ =>
      (nl ++ lit "❌ 失败的文件:", error)
      :: map (fun entry => (lit "  • " ++ fst entry ++ lit ": " ++ snd entry, error))
             failed
  end.

(** Lines 696-699: the summary of a run with these tallies. *)
Definition summary (converted failed : nat) : list (str * tag) :=
  [(nl ++ rule, info);
   (lit "🎉 转换完成！", info);
   (lit "📊 成功: " ++ of_nat converted ++ lit " 个  ❌ 失败: " ++ of_nat failed
    ++ lit " 个", info);
   (rule, info)].

(** ** An outside that keeps a record *)

Module Recorder.

(** The encoder invocations, each with its timeout, and the paths
    [os.remove] was called on, in the order they happened. *)
Record world : Type := {
  invoked : list (list str * N);
  removed : list str
}.

Definition fresh : world := {| invoked := []; removed := [] |}.

(** The outside scripted by [s]; the stop button is pressed once
    [stop_after s] encoder runs have been made. *)
Definition environment (s : Stub.script) : Environment world :=
  {| subprocess_run := fun cmd timeout w =>
       (Stub.encoder s cmd,
        {| invoked := invoked w ++ [(cmd, timeout)]; removed := removed w |});
     os_remove := fun p w =>
       (Stub.removal s p,
        {| invoked := invoked w; removed := removed w ++ [p] |});
     os_access_W_OK := fun _ _ => Stub.writable s;
     is_converting := fun w =>
       match Stub.stop_after s with
       | Some k => List.length (invoked w) <? k
       | None => true
       end |}.

(** What [convert_file] returns for an input: with a scripted encoder it
    does not depend on what happened before. *)
Definition verdict {platform : Platform} (s : Stub.script)
    (self : AudioConverterApp) (input_file : str) : bool * str :=
  fst (@convert_file platform world (environment s) self input_file fresh).

(** How many jobs a run over [n] files gets to. *)
Definition attempts (s : Stub.script) (n : nat) : nat :=
  match Stub.stop_after s with
  | Some k => Nat.min k n
  | None => n
  end.

End Recorder.

(** * Properties *)

(** Literals are compared as literals; they are decoded only where a proof
    evaluates. *)
Opaque lit.

(** ** Strings and lists *)

Lemma contains_head_In (c : N) (needle hay : str) :
  contains (c :: needle) hay = true -> In c hay.
Proof.
  induction hay as [|a hay IH]; simpl.
  - discriminate.
  - intros H. apply orb_true_iff in H. destruct H as [H | H].
    + apply andb_true_iff in H. destruct H as [H _].
      apply N.eqb_eq in H. now left.
    + right. now apply IH.
Qed.

Lemma contains_not_In (c : N) (needle hay : str) :
  ~ In c hay -> contains (c :: needle) hay = false.
Proof.
  intros H. destruct (contains (c :: needle) hay) eqn:E; [|reflexivity].
  now apply contains_head_In in E.
Qed.

Lemma split_nl_Forall (P : N -> Prop) (s : str) :
  Forall P s -> Forall (Forall P) (split_nl s).
Proof.
  induction 1 as [|c s Hc Hs IH]; simpl.
  - repeat constructor.
  - destruct (c =? 10)%N.
    + constructor; [constructor | exact IH].
    + destruct (split_nl s) as [|l ls].
      * repeat constructor; assumption.
      * inversion IH; subst. constructor; [constructor|]; assumption.
Qed.

Lemma split_nl_nonempty (s : str) : split_nl s <> [].
Proof.
  destruct s as [|c s]; simpl; [discriminate|].
  destruct (c =? 10)%N; [discriminate|].
  destruct (split_nl s); discriminate.
Qed.

Lemma lstrip_spaces (s : str) :
  Forall (fun c => isspace c = true) s -> lstrip s = [].
Proof.
  induction 1 as [|c s Hc Hs IH]; simpl; [reflexivity|].
  now rewrite Hc.
Qed.

Lemma strip_spaces (s : str) :
  Forall (fun c => isspace c = true) s -> strip s = [].
Proof.
  intros H. unfold strip, rstrip. now rewrite (lstrip_spaces _ H).
Qed.

Lemma spaces_not_In (c : N) (s : str) :
  isspace c = false -> Forall (fun c => isspace c = true) s -> ~ In c s.
Proof.
  intros Hc Hs Hin. rewrite Forall_forall in Hs.
  specialize (Hs c Hin). congruence.
Qed.

Lemma filter_none {A} (p : A -> bool) (l : list A) :
  Forall (fun x => p x = false) l -> filter p l = [].
Proof.
  induction 1 as [|x l Hx Hl IH]; simpl; [reflexivity|].
  now rewrite Hx.
Qed.

Lemma find_first {A} (p : A -> bool) (before after : list A) (x : A) :
  Forall (fun y => p y = false) before -> p x = true ->
  find p (before ++ x :: after) = Some x.
Proof.
  induction 1 as [|y l Hy Hl IH]; simpl; intros Hx.
  - now rewrite Hx.
  - rewrite Hy. now apply IH.
Qed.

Lemma find_none {A} (p : A -> bool) (l : list A) :
  Forall (fun y => p y = false) l -> find p l = None.
Proof.
  induction 1 as [|y l Hy Hl IH]; simpl; [reflexivity|].
  now rewrite Hy.
Qed.

Lemma last_item_snoc {A} (l : list A) (x : A) : last_item (l ++ [x]) = Return x.
Proof.
  destruct l as [|y l]; simpl; [reflexivity|].
  now rewrite last_last.
Qed.

Lemma filter_last_kept {A} (p : A -> bool) (before after : list A) (x : A) :
  p x = true -> Forall (fun y => p y = false) after ->
  filter p (before ++ x :: after) = filter p before ++ [x].
Proof.
  intros Hx Hafter. rewrite filter_app. simpl. rewrite Hx.
  now rewrite (filter_none _ _ Hafter).
Qed.

Lemma existsb_none {A} (p : A -> bool) (l : list A) :
  existsb p l = false -> Forall (fun x => p x = false) l.
Proof.
  induction l as [|x l IH]; simpl; [constructor|].
  intros H. apply orb_false_iff in H. destruct H as [Hx Hl].
  constructor; [exact Hx | now apply IH].
Qed.

Lemma first_match {A} (p : A -> bool) (l : list A) :
  existsb p l = true ->
  exists before x after,
    l = before ++ x :: after
    /\ Forall (fun y => p y = false) before
    /\ p x = true.
Proof.
  induction l as [|y l IH]; simpl; [discriminate|].
  destruct (p y) eqn:Hy.
  - intros _. exists [], y, l.
    split; [reflexivity|]. split; [constructor | exact Hy].
  - simpl. intros H. destruct (IH H) as (before & x & after & -> & Hb & Hx).
    exists (y :: before), x, after.
    split; [reflexivity|]. split; [now constructor | exact Hx].
Qed.

Lemma last_match {A} (p : A -> bool) (l : list A) :
  existsb p l = true ->
  exists before x after,
    l = before ++ x :: after
    /\ p x = true
    /\ Forall (fun y => p y = false) after.
Proof.
  induction l as [|y l IH]; simpl; [discriminate|].
  destruct (existsb p l) eqn:Hl.
  - intros _. destruct (IH eq_refl) as (before & x & after & -> & Hx & Ha).
    exists (y :: before), x, after.
    split; [reflexivity|]. split; assumption.
  - rewrite orb_false_r. intros Hy. exists [], y, l.
    split; [reflexivity|]. split; [exact Hy | now apply existsb_none].
Qed.

(** ** [convert_file] *)

Section ConvertFileFacts.

Context {platform : Platform} {World : Type} {environment : Environment World}.

Variable self : AudioConverterApp.

Lemma convert_file_ran (input_file : str) (w w' : World)
    (ran : result CompletedProcess) :
  subprocess_run (build_cmd self input_file) 300 w = (ran, w') ->
  convert_file self input_file w =
    (match (r <- ran ;;
            if (returncode r =? 0)%Z then Return (true, output_path self input_file)
            else failure_message (stderr r)) with
     | Return r => r
     | Raise (TimeoutExpired _) => (false, lit "转换超时")
     | Raise (Exception _ as e) => (false, lit "错误: " ++ exn_str e)
     end, w').
Proof.
  intros H. unfold convert_file. rewrite H. reflexivity.
Qed.

Lemma convert_file_failed (input_file : str) (w w' : World) (r : CompletedProcess) :
  subprocess_run (build_cmd self input_file) 300 w = (Return r, w') ->
  returncode r <> 0%Z ->
  convert_file self input_file w =
    (match failure_message (stderr r) with
     | Return r => r
     | Raise (TimeoutExpired _) => (false, lit "转换超时")
     | Raise (Exception _ as e) => (false, lit "错误: " ++ exn_str e)
     end, w').
Proof.
  intros H Hcode. rewrite (convert_file_ran _ _ _ _ H). simpl.
  destruct (returncode r =? 0)%Z eqn:E; [|reflexivity].
  apply Z.eqb_eq in E. contradiction.
Qed.

End ConvertFileFacts.

(** ** The failure branch, rule by rule *)

Section FailureRules.

Variable error_msg : str.

Lemma rule_invalid_data :
  contains (lit "Invalid data") error_msg = true ->
  failure_message error_msg = Return (returned (Failure InvalidInputData)).
Proof. intros H. unfold failure_message. now rewrite H. Qed.

Lemma rule_permission_denied :
  contains (lit "Invalid data") error_msg = false ->
  contains (lit "Permission denied") error_msg = true ->
  failure_message error_msg = Return (returned (Failure PermissionDenied)).
Proof. intros H1 H2. unfold failure_message. now rewrite H1, H2. Qed.

Lemma rule_disk_full :
  contains (lit "Invalid data") error_msg = false ->
  contains (lit "Permission denied") error_msg = false ->
  contains (lit "No space left") error_msg = true ->
  failure_message error_msg = Return (returned (Failure DiskFull)).
Proof. intros H1 H2 H3. unfold failure_message. now rewrite H1, H2, H3. Qed.

Hypothesis no_invalid_data : contains (lit "Invalid data") error_msg = false.
Hypothesis no_permission_denied : contains (lit "Permission denied") error_msg = false.
Hypothesis no_space_left : contains (lit "No space left") error_msg = false.

Lemma rule_error_line (before after : list str) (line : str) :
  contains (lit "Error") error_msg = true ->
  split_nl error_msg = before ++ line :: after ->
  Forall (fun l => error_line l = false) before ->
  error_line line = true ->
  failure_message error_msg = Return (returned (Failure (EncoderError (strip line)))).
Proof.
  intros H4 Hsplit Hbefore Hline. unfold failure_message.
  rewrite no_invalid_data, no_permission_denied, no_space_left, H4, Hsplit.
  change (fun l : str => contains (lit "Error") l
                         && negb (contains (lit "ffmpeg") (lower l)))
    with error_line.
  now rewrite (find_first error_line before after line Hbefore Hline).
Qed.

Lemma rule_error_tail (before : list str) (tail : str) :
  contains (lit "Error") error_msg = true ->
  split_nl error_msg = before ++ [tail] ->
  Forall (fun l => error_line l = false) (split_nl error_msg) ->
  failure_message error_msg = Return (returned (Failure (EncoderError (strip tail)))).
Proof.
  intros H4 Hsplit Hnone. unfold failure_message.
  rewrite no_invalid_data, no_permission_denied, no_space_left, H4.
  change (fun l : str => contains (lit "Error") l
                         && negb (contains (lit "ffmpeg") (lower l)))
    with error_line.
  rewrite (find_none error_line _ Hnone), Hsplit, last_item_snoc.
  reflexivity.
Qed.

Hypothesis no_error : contains (lit "Error") error_msg = false.

Lemma rule_unknown_empty :
  error_msg = [] ->
  failure_message error_msg = Return (returned (Failure (UnknownFailure (lit "未知错误")))).
Proof. intros ->. reflexivity. Qed.

Lemma rule_unknown_last (before after : list str) (line : str) :
  split_nl error_msg = before ++ line :: after ->
  blank line = false ->
  Forall (fun l => blank l = true) after ->
  failure_message error_msg = Return (returned (Failure (UnknownFailure line))).
Proof.
  intros Hsplit Hline Hafter. unfold failure_message.
  rewrite no_invalid_data, no_permission_denied, no_space_left, no_error, Hsplit.
  change (fun l : str => negb (eqb (strip l) [])) with (fun l => negb (blank l)).
  rewrite filter_last_kept, last_item_snoc.
  - destruct error_msg as [|c s] eqn:E; [|reflexivity].
    exfalso. destruct before as [|b before'].
    + injection Hsplit as <- _. vm_compute in Hline. discriminate Hline.
    + injection Hsplit as _ E'. now apply app_cons_not_nil in E'.
  - now rewrite Hline.
  - eapply Forall_impl; [|exact Hafter]. intros l Hl. simpl. now rewrite Hl.
Qed.

Lemma rule_unknown_blank :
  error_msg <> [] ->
  Forall (fun l => blank l = true) (split_nl error_msg) ->
  failure_message error_msg = Raise IndexError.
Proof.
  intros Hne Hblank. unfold failure_message.
  rewrite no_invalid_data, no_permission_denied, no_space_left, no_error.
  change (fun l : str => negb (eqb (strip l) [])) with (fun l => negb (blank l)).
  rewrite filter_none.
  - destruct error_msg; [contradiction | reflexivity].
  - eapply Forall_impl; [|exact Hblank]. intros l Hl. simpl. now rewrite Hl.
Qed.

End FailureRules.

(** ** Outcomes of one conversion *)

Section Outcomes.

Context {platform : Platform} {World : Type} {environment : Environment World}.

Variable self : AudioConverterApp.
Variable input_file : str.

(** C8. The encoder is run once, on the built command line, with a
    timeout of 300 seconds and its standard error captured. A return code
    of 0 gives Success with the resolved output path; an expired timeout
    gives the Timeout failure; any other exception of the invocation, such
    as a process that could not be started, gives UnexpectedError with the
    message of the exception. The world moves as the invocation moved it. *)
Theorem convert_file_outcomes (w : World) :
  let ran := subprocess_run (build_cmd self input_file) 300 w in
  snd (convert_file self input_file w) = snd ran
  /\ (forall r, fst ran = Return r -> returncode r = 0%Z ->
      fst (convert_file self input_file w)
      = returned (Success (output_path self input_file)))
  /\ (forall m, fst ran = Raise (TimeoutExpired m) ->
      fst (convert_file self input_file w) = returned (Failure Timeout))
  /\ (forall m, fst ran = Raise (Exception m) ->
      fst (convert_file self input_file w) = returned (Failure (UnexpectedError m))).
Proof.
  intros ran. subst ran.
  destruct (subprocess_run (build_cmd self input_file) 300 w) as [ran w'] eqn:E.
  rewrite (convert_file_ran self input_file w w' ran E). simpl.
  split; [reflexivity|]. repeat split.
  - intros r -> Hcode. simpl. now rewrite Hcode.
  - intros m ->. reflexivity.
  - intros m ->. reflexivity.
Qed.

(** C1, amended. After a non-zero return code the captured standard error
    is classified by the first rule that applies, in this order: it
    contains "Invalid data": InvalidInputData; "Permission denied":
    PermissionDenied; "No space left": DiskFull; "Error": EncoderError,
    which carries, stripped of surrounding white space, the first line that
    contains "Error" and does not contain "ffmpeg" in any letter case, or,
    when no line is such and the last line is not blank, that last line;
    none of these: UnknownFailure, which carries the last line that is not
    blank, as it stands, when there is such a line, and the text "未知错误"
    when the standard error is empty; a standard error that is not empty
    and has blank lines only is not classified at all: the job is reported
    as UnexpectedError. One case is left open: a standard error with
    "Error" in lines with "ffmpeg" only that ends in a blank line. *)
Theorem failure_classification (w w' : World) (r : CompletedProcess) :
  subprocess_run (build_cmd self input_file) 300 w = (Return r, w') ->
  returncode r <> 0%Z ->
  let error_msg := stderr r in
  let got := fst (convert_file self input_file w) in
  (contains (lit "Invalid data") error_msg = true ->
   got = returned (Failure InvalidInputData))
  /\ (contains (lit "Invalid data") error_msg = false ->
      (contains (lit "Permission denied") error_msg = true ->
       got = returned (Failure PermissionDenied))
      /\ (contains (lit "Permission denied") error_msg = false ->
          (contains (lit "No space left") error_msg = true ->
           got = returned (Failure DiskFull))
          /\ (contains (lit "No space left") error_msg = false ->
              (contains (lit "Error") error_msg = true ->
               (existsb error_line (split_nl error_msg) = true ->
                exists before line after,
                  split_nl error_msg = before ++ line :: after
                  /\ Forall (fun l => error_line l = false) before
                  /\ error_line line = true
                  /\ got = returned (Failure (EncoderError (strip line))))
               /\ (existsb error_line (split_nl error_msg) = false ->
                   exists before tail,
                     split_nl error_msg = before ++ [tail]
                     /\ (blank tail = false ->
                         got = returned (Failure (EncoderError (strip tail))))))
              /\ (contains (lit "Error") error_msg = false ->
                  (error_msg = [] ->
                   got = returned (Failure (UnknownFailure (lit "未知错误"))))
                  /\ (existsb (fun l => negb (blank l)) (split_nl error_msg) = true ->
                      exists before line after,
                        split_nl error_msg = before ++ line :: after
                        /\ blank line = false
                        /\ Forall (fun l => blank l = true) after
                        /\ got = returned (Failure (UnknownFailure line)))
                  /\ (error_msg <> [] ->
                      existsb (fun l => negb (blank l)) (split_nl error_msg) = false ->
                      got = returned
                              (Failure (UnexpectedError (lit "list index out of range")))))))).
Proof.
  intros Hran Hcode error_msg got. subst got error_msg.
  rewrite (convert_file_failed self input_file w w' r Hran Hcode). simpl fst.
  split; [intros H1; now rewrite (rule_invalid_data _ H1)|].
  intros H1.
  split; [intros H2; now rewrite (rule_permission_denied _ H1 H2)|].
  intros H2.
  split; [intros H3; now rewrite (rule_disk_full _ H1 H2 H3)|].
  intros H3. split.
  - intros H4. split.
    + intros Hsome.
      destruct (first_match _ _ Hsome) as (before & line & after & Hsplit & Hbefore & Hline).
      exists before, line, after.
      split; [exact Hsplit|]. split; [exact Hbefore|]. split; [exact Hline|].
      now rewrite (rule_error_line _ H1 H2 H3 before after line H4 Hsplit Hbefore Hline).
    + intros Hnone. apply existsb_none in Hnone.
      destruct (exists_last (split_nl_nonempty (stderr r))) as (before & tail & Hsplit).
      exists before, tail. split; [exact Hsplit|]. intros _.
      now rewrite (rule_error_tail _ H1 H2 H3 before tail H4 Hsplit Hnone).
  - intros H4. split; [|split].
    + intros Hempty. now rewrite (rule_unknown_empty _ H1 H2 H3 H4 Hempty).
    + intros Hsome.
      destruct (last_match _ _ Hsome) as (before & line & after & Hsplit & Hline & Hafter).
      apply negb_true_iff in Hline.
      assert (Hblank : Forall (fun l => blank l = true) after).
      { eapply Forall_impl; [|exact Hafter]. intros l Hl.
        now apply negb_false_iff in Hl. }
      exists before, line, after.
      split; [exact Hsplit|]. split; [exact Hline|]. split; [exact Hblank|].
      now rewrite (rule_unknown_last _ H1 H2 H3 H4 before after line Hsplit Hline Hblank).
    + intros Hne Hnone. apply existsb_none in Hnone.
      assert (Hblank : Forall (fun l => blank l = true) (split_nl (stderr r))).
      { eapply Forall_impl; [|exact Hnone]. intros l Hl.
        now apply negb_false_iff in Hl. }
      now rewrite (rule_unknown_blank _ H1 H2 H3 H4 Hne Hblank).
Qed.

(** C10. A non-zero return code with a standard error that is not empty
    and holds white space only matches none of the four substrings; every
    one of its lines is blank, so the selection of the last line that is
    not blank indexes an empty list; the IndexError is caught by the
    generic handler and the job is reported as UnexpectedError, not as
    UnknownFailure. *)
Theorem blank_stderr_is_unexpected_error (w w' : World) (r : CompletedProcess) :
  subprocess_run (build_cmd self input_file) 300 w = (Return r, w') ->
  returncode r <> 0%Z ->
  stderr r <> [] ->
  Forall (fun c => isspace c = true) (stderr r) ->
  (contains (lit "Invalid data") (stderr r) = false
   /\ contains (lit "Permission denied") (stderr r) = false
   /\ contains (lit "No space left") (stderr r) = false
   /\ contains (lit "Error") (stderr r) = false)
  /\ filter (fun l => negb (blank l)) (split_nl (stderr r)) = []
  /\ failure_message (stderr r) = Raise IndexError
  /\ convert_file self input_file w
     = (returned (Failure (UnexpectedError (lit "list index out of range"))), w')
  /\ forall line,
       fst (convert_file self input_file w) <> returned (Failure (UnknownFailure line)).
Proof.
  intros Hran Hcode Hne Hspace.
  assert (Hnot : forall needle c rest,
             needle = c :: rest -> isspace c = false ->
             contains needle (stderr r) = false).
  { intros needle c rest -> Hc. apply contains_not_In. now apply spaces_not_In. }
  assert (H1 : contains (lit "Invalid data") (stderr r) = false)
    by (eapply Hnot; [vm_compute; reflexivity | reflexivity]).
  assert (H2 : contains (lit "Permission denied") (stderr r) = false)
    by (eapply Hnot; [vm_compute; reflexivity | reflexivity]).
  assert (H3 : contains (lit "No space left") (stderr r) = false)
    by (eapply Hnot; [vm_compute; reflexivity | reflexivity]).
  assert (H4 : contains (lit "Error") (stderr r) = false)
    by (eapply Hnot; [vm_compute; reflexivity | reflexivity]).
  assert (Hblank : Forall (fun l => blank l = true) (split_nl (stderr r))).
  { eapply Forall_impl; [|exact (split_nl_Forall _ _ Hspace)].
    intros l Hl. unfold blank. now rewrite (strip_spaces _ Hl). }
  assert (Hraise : failure_message (stderr r) = Raise IndexError)
    by exact (rule_unknown_blank _ H1 H2 H3 H4 Hne Hblank).
  assert (Hgot : convert_file self input_file w
                 = (returned (Failure (UnexpectedError (lit "list index out of range"))), w')).
  { rewrite (convert_file_failed self input_file w w' r Hran Hcode), Hraise.
    reflexivity. }
  repeat split; try assumption.
  - apply filter_none. eapply Forall_impl; [|exact Hblank].
    intros l Hl. simpl. now rewrite Hl.
  - intros line. rewrite Hgot. simpl. intros E.
    apply (f_equal (fun p => hd 0%N (snd p))) in E.
    vm_compute in E. discriminate E.
Qed.

End Outcomes.

(** ** The command line *)

Lemma eqb_eq (a b : str) : eqb a b = true <-> a = b.
Proof.
  revert b. induction a as [|x a IH]; intros [|y b]; simpl; split; intros H;
    try reflexivity; try discriminate.
  - apply andb_true_iff in H. destruct H as [Hx Ha].
    apply N.eqb_eq in Hx. apply IH in Ha. now subst.
  - injection H as -> ->. rewrite N.eqb_refl. simpl. now apply IH.
Qed.

(** The tiers the profile table gives a format are the tiers its quality
    entries name. *)
Lemma profile_tiers_are_entries (output_format : str) (t : QualityTier) :
  In output_format format_values ->
  (profile_flags output_format t <> None
   <-> exists quality,
        In quality (quality_values output_format) /\ tier_of_entry quality = Some t).
Proof.
  intros Hf. unfold format_values in Hf. simpl in Hf.
  destruct Hf as [<-|[<-|[<-|[<-|[<-|[<-|[<-|[]]]]]]]]; split.
  all: try (intros [quality [Hq Ht]]; vm_compute in Hq;
            destruct Hq as [<-|[<-|[<-|[]]]]; vm_compute in Ht;
            injection Ht as <-; discriminate).
  all: intros H; destruct t; try (exfalso; apply H; reflexivity);
    match goal with
    | |- exists q, In q ?l /\ _ =>
        first [ exists (nth 0 l []); split; [vm_compute; tauto | reflexivity]
              | exists (nth 1 l []); split; [vm_compute; tauto | reflexivity]
              | exists (nth 2 l []); split; [vm_compute; tauto | reflexivity] ]
    end.
Qed.

Section CommandLine.

Context {platform : Platform}.

(** C3. For every format of the form and every quality entry the form
    offers for it, the entry names a tier of the format's profile, and the
    command line is the fixed prefix, the codec flags of the format, the
    quality flags the profile table gives that tier and the output path:
    -b:a 192k/128k/64k for high/medium/low of mp3, aac and wma;
    -b:a 256k/192k/128k for m4a and ogg; for flac and wav nothing for
    lossless, -ar 48000 for high and -ar 44100 for standard, and no
    bitrate flag. *)
Theorem build_cmd_follows_profile (output_format quality : str) :
  In output_format format_values ->
  In quality (quality_values output_format) ->
  exists t flags,
    tier_of_entry quality = Some t
    /\ profile_flags output_format t = Some flags
    /\ forall self input_file,
        output_format_var self = output_format ->
        quality_var self = quality ->
        build_cmd self input_file
        = [lit "ffmpeg"; lit "-y"; lit "-i"; input_file; lit "-vn"]
            ++ profile_codec output_format ++ flags
            ++ [output_path self input_file].
Proof.
  intros Hf Hq. unfold format_values in Hf. simpl in Hf.
  destruct Hf as [<-|[<-|[<-|[<-|[<-|[<-|[<-|[]]]]]]]];
    vm_compute in Hq; destruct Hq as [<-|[<-|[<-|[]]]];
    eexists; eexists; (split; [reflexivity|]); (split; [reflexivity|]);
    intros self input_file Hformat Hquality;
    unfold build_cmd; rewrite Hformat, Hquality; reflexivity.
Qed.

(** C5. Whatever the input path, the output directory, the format and the
    quality entry, the command line starts with ffmpeg, -y, -i, the input
    path and -vn, in this order; for m4a the container is then forced with
    -f mov, which is not the container the extension names. *)
Theorem build_cmd_prefix (self : AudioConverterApp) (input_file : str) :
  (exists rest,
      build_cmd self input_file
      = [lit "ffmpeg"; lit "-y"; lit "-i"; input_file; lit "-vn"] ++ rest)
  /\ (output_format_var self = lit "m4a" ->
      lit "mov" <> output_format_var self
      /\ exists rest,
          build_cmd self input_file
          = [lit "ffmpeg"; lit "-y"; lit "-i"; input_file; lit "-vn"]
              ++ [lit "-vn"; lit "-f"; lit "mov"] ++ rest).
Proof.
  split.
  - unfold build_cmd.
    repeat match goal with
           | |- context [if ?c then _ else _] => destruct c
           end; simpl; eexists; reflexivity.
  - intros Hformat. split.
    + rewrite Hformat. intros E. vm_compute in E. discriminate E.
    + unfold build_cmd. rewrite Hformat.
      destruct (contains (lit "高质量") (quality_var self));
        [|destruct (contains (lit "中等质量") (quality_var self))];
        eexists; reflexivity.
Qed.

(** C4, amended. The command line is built for every format and every
    quality entry, also for an entry whose tier the format's profile does
    not have: no pair is refused. Such an entry is treated as the last
    entry of the format (low for the lossy formats, standard for flac and
    wav), and the conversion goes on: when the encoder exits 0 the job is
    a Success. *)
Theorem off_profile_tier_falls_back (output_format quality : str) (t : QualityTier) :
  In output_format format_values ->
  In quality all_entries ->
  tier_of_entry quality = Some t ->
  profile_flags output_format t = None ->
  forall self input_file,
    output_format_var self = output_format ->
    quality_var self = quality ->
    build_cmd self input_file
    = build_cmd (with_quality self (last (quality_values output_format) [])) input_file
    /\ forall (World : Type) (environment : Environment World) (w w' : World) r,
        subprocess_run (build_cmd self input_file) 300 w = (Return r, w') ->
        returncode r = 0%Z ->
        convert_file self input_file w
        = (returned (Success (output_path self input_file)), w').
Proof.
  intros Hf Hq Ht Hnone self input_file Hformat Hquality. split.
  - unfold format_values in Hf. simpl in Hf.
    destruct Hf as [<-|[<-|[<-|[<-|[<-|[<-|[<-|[]]]]]]]];
      vm_compute in Hq;
      repeat (destruct Hq as [<-|Hq];
              [vm_compute in Ht; injection Ht as <-;
               first [discriminate Hnone
                     | unfold build_cmd, output_path, with_quality; simpl;
                       rewrite Hformat, Hquality; reflexivity]|]);
      destruct Hq.
  - intros World environment w w' r Hran Hcode.
    rewrite (convert_file_ran self input_file w w' _ Hran). simpl.
    now rewrite Hcode.
Qed.

End CommandLine.

(** ** The loop *)

Section LoopFacts.

Context {platform : Platform} {World : Type} {environment : Environment World}.

Variable self : AudioConverterApp.
Variable total_files : nat.
Variable output_format : str.

Lemma convert_one_run (i : nat) (input_file : str) (st : Run) (w : World) :
  let got := fst (convert_file self input_file w) in
  convert_one self total_files (delete_original_var self) output_format
              i input_file st w
  = ({| log_text := log_text st ++ job_log self total_files output_format i input_file w;
        progress_var := progress_var st ++ [percentage i total_files];
        converted_files := converted_files st + (if fst got then 1 else 0);
        failed_files :=
          failed_files st
          ++ (if fst got then [] else [(path_name input_file, snd got)]);
        outcomes := outcomes st ++ [(input_file, got)] |},
     after_job self input_file w).
Proof.
  unfold convert_one, after_job, convert_one, job_log.
  destruct (convert_file self input_file w) as [[ok message] w1]. simpl.
  destruct ok.
  - destruct (delete_original_var self).
    + destruct (os_remove input_file w1) as [[u|e] w2]; simpl;
        unfold set_progress, log, count_converted, remember; simpl;
        rewrite <- ?app_assoc, ?app_nil_r, ?Nat.add_0_r; reflexivity.
    + unfold set_progress, log, count_converted, remember; simpl.
      rewrite <- ?app_assoc, ?app_nil_r. reflexivity.
  - unfold set_progress, log, append_failed, remember; simpl.
    rewrite <- ?app_assoc, ?Nat.add_0_r. reflexivity.
Qed.

Lemma log_entries_keeps (entries : list (str * str)) :
  forall st0,
    let st1 := fold_left
                 (fun st entry =>
                    log st (lit "  • " ++ fst entry ++ lit ": " ++ snd entry) error)
                 entries st0 in
    progress_var st1 = progress_var st0
    /\ converted_files st1 = converted_files st0
    /\ failed_files st1 = failed_files st0
    /\ outcomes st1 = outcomes st0
    /\ forall e, In e (log_text st0) -> In e (log_text st1).
Proof.
  induction entries as [|y entries IH]; intros st0; simpl; [tauto|].
  destruct (IH (log st0 (lit "  • " ++ fst y ++ lit ": " ++ snd y) error))
    as (H1 & H2 & H3 & H4 & H5).
  refine (conj H1 (conj H2 (conj H3 (conj H4 _)))).
  intros e He. apply H5. simpl. apply in_or_app. now left.
Qed.

Lemma log_failures_keeps (st : Run) :
  progress_var (log_failures st) = progress_var st
  /\ converted_files (log_failures st) = converted_files st
  /\ failed_files (log_failures st) = failed_files st
  /\ outcomes (log_failures st) = outcomes st
  /\ forall e, In e (log_text st) -> In e (log_text (log_failures st)).
Proof.
  unfold log_failures. destruct (failed_files st) as [|x l] eqn:E.
  - rewrite E. tauto.
  - destruct (log_entries_keeps (x :: l) (log st (nl ++ lit "❌ 失败的文件:") error))
      as (H1 & H2 & H3 & H4 & H5).
    simpl in H3. rewrite E in H3.
    refine (conj H1 (conj H2 (conj H3 (conj H4 _)))).
    intros e He. apply H5. simpl. apply in_or_app. now left.
Qed.

Lemma convert_from_run (files : list str) :
  forall (k i : nat) (st : Run) (w : World),
    k <= List.length files ->
    (forall j, j < k -> is_converting (boundary self j files w) = true) ->
    (k < List.length files -> is_converting (boundary self k files w) = false) ->
    let ran := convert_from self total_files (delete_original_var self)
                            output_format i files st w in
    let new := results self (firstn k files) w in
    snd ran = boundary self k files w
    /\ outcomes (fst ran) = outcomes st ++ new
    /\ progress_var (fst ran)
       = progress_var st ++ map (fun j => percentage j total_files) (seq i k)
    /\ converted_files (fst ran)
       = converted_files st + List.length (filter succeeded new)
    /\ failed_files (fst ran)
       = failed_files st
         ++ map failed_entry (filter (fun o => negb (succeeded o)) new)
    /\ (k < List.length files -> In cancel_line (log_text (fst ran)))
    /\ (forall e, In e (log_text st) -> In e (log_text (fst ran))).
Proof.
  induction files as [|input_file rest IH]; intros k i st w Hk Hgo Hstop.
  - simpl in Hk. assert (k = 0) as -> by lia. simpl.
    rewrite !app_nil_r, Nat.add_0_r. repeat split; try tauto. lia.
  - destruct k as [|k].
    + pose proof (Hstop (Nat.lt_0_succ _)) as Hw. simpl in Hw.
      simpl. rewrite Hw. simpl.
      rewrite !app_nil_r, Nat.add_0_r. repeat split.
      * intros _. apply in_or_app. right. now left.
      * intros e He. apply in_or_app. now left.
    + assert (Hw : is_converting w = true) by (apply (Hgo 0); lia).
      simpl convert_from. rewrite Hw. simpl negb. cbv iota.
      rewrite convert_one_run.
      set (got := fst (convert_file self input_file w)).
      set (st1 := {| log_text := _ |}).
      destruct (IH k (S i) st1 (after_job self input_file w))
        as (H1 & H2 & H3 & H4 & H5 & H6 & H7).
      * simpl in Hk. lia.
      * intros j Hj. apply (Hgo (S j)). lia.
      * intros Hlt. apply Hstop. simpl. lia.
      * simpl firstn. simpl results. fold got. simpl boundary.
        repeat split.
        -- exact H1.
        -- rewrite H2. subst st1. simpl. now rewrite <- app_assoc.
        -- rewrite H3. subst st1. simpl. now rewrite <- app_assoc.
        -- rewrite H4. subst st1. simpl. unfold succeeded at 2. simpl.
           destruct (fst got); simpl; lia.
        -- rewrite H5. subst st1. simpl. unfold succeeded at 2. simpl.
           rewrite <- app_assoc. destruct (fst got); reflexivity.
        -- intros Hlt. apply H6. simpl in Hlt. lia.
        -- intros e He. apply H7. subst st1. simpl. apply in_or_app. now left.
Qed.

Lemma cancellation_cases (files : list str) :
  forall w, never_cancelled self files w
            \/ exists k, cancelled_after self k files w.
Proof.
  induction files as [|input_file rest IH]; intros w.
  - left. intros j Hj. simpl in Hj. lia.
  - destruct (is_converting w) eqn:Hw.
    + destruct (IH (after_job self input_file w)) as [Hnever | [k (Hk & Hgo & Hstop)]].
      * left. intros [|j] Hj; simpl; [exact Hw|]. apply Hnever. simpl in Hj. lia.
      * right. exists (S k). repeat split.
        -- simpl. lia.
        -- intros [|j] Hj; simpl; [exact Hw|]. apply Hgo. lia.
        -- exact Hstop.
    + right. exists 0. repeat split.
      * simpl. lia.
      * intros j Hj. lia.
      * exact Hw.
Qed.

End LoopFacts.

(** ** Whole runs *)

Lemma tally_split {A} (p : A -> bool) (l : list A) :
  List.length (filter p l) + List.length (filter (fun x => negb (p x)) l)
  = List.length l.
Proof.
  induction l as [|x l IH]; simpl; [reflexivity|].
  destruct (p x); simpl; lia.
Qed.

Section Runs.

Context {platform : Platform} {World : Type} {environment : Environment World}.

Variable self : AudioConverterApp.

Lemma results_names (files : list str) :
  forall w, map fst (results self files w) = files.
Proof.
  induction files as [|f rest IH]; intros w; simpl; [reflexivity|].
  now rewrite IH.
Qed.

Lemma convert_file_exit_0 (input_file : str) (w : World) :
  always_exits_0 ->
  fst (convert_file self input_file w)
  = returned (Success (output_path self input_file)).
Proof.
  intros Hok.
  destruct (Hok (build_cmd self input_file) w) as [r [Hran Hcode]].
  destruct (subprocess_run (build_cmd self input_file) 300 w) as [ran w'] eqn:E.
  simpl in Hran. subst ran.
  rewrite (convert_file_ran self input_file w w' _ E). simpl.
  now rewrite Hcode.
Qed.

Lemma results_exit_0 (files : list str) :
  always_exits_0 ->
  forall w, results self files w
            = map (fun f => (f, returned (Success (output_path self f)))) files.
Proof.
  intros Hok. induction files as [|f rest IH]; intros w; simpl; [reflexivity|].
  now rewrite IH, (convert_file_exit_0 f w Hok).
Qed.

Lemma convert_from_quiet (total_files : nat) (output_format : str) (files : list str) :
  delete_original_var self = false ->
  always_exits_0 ->
  forall i st w,
    never_cancelled self files w ->
    Forall (fun e => quiet e = true) (log_text st) ->
    let ran := convert_from self total_files (delete_original_var self)
                            output_format i files st w in
    Forall (fun e => quiet e = true) (log_text (fst ran))
    /\ failed_files (fst ran) = failed_files st.
Proof.
  intros Hkeep Hok. induction files as [|f rest IH]; intros i st w Hnever Hst.
  - simpl. now split.
  - assert (Hw : is_converting w = true) by (apply (Hnever 0); simpl; lia).
    simpl convert_from. rewrite Hw. simpl negb. cbv iota.
    rewrite convert_one_run.
    pose proof (convert_file_exit_0 f w Hok) as Hgot.
    set (st1 := {| log_text := _ |}).
    destruct (IH (S i) st1 (after_job self f w)) as [H1 H2].
    + intros j Hj. apply (Hnever (S j)). simpl. lia.
    + subst st1. simpl. apply Forall_app. split; [exact Hst|].
      unfold job_log. rewrite Hkeep.
      destruct (convert_file self f w) as [[ok message] w1].
      simpl in Hgot. injection Hgot as -> ->.
      repeat constructor.
    + split; [exact H1|]. rewrite H2. subst st1. simpl.
      rewrite Hgot. simpl. apply app_nil_r.
Qed.

Lemma conversion_worker_run (w : World) (k : nat) :
  os_access_W_OK (output_dir self) w = true ->
  k <= List.length (file_list self) ->
  (forall j, j < k -> is_converting (boundary self j (file_list self) w) = true) ->
  (k < List.length (file_list self) ->
   is_converting (boundary self k (file_list self) w) = false) ->
  let run := fst (conversion_worker self w) in
  let new := results self (firstn k (file_list self)) w in
  outcomes run = new
  /\ progress_var run
     = map (fun j => percentage j (List.length (file_list self))) (seq 0 k)
  /\ converted_files run = List.length (filter succeeded new)
  /\ failed_files run = map failed_entry (filter (fun o => negb (succeeded o)) new)
  /\ (k < List.length (file_list self) -> In cancel_line (log_text run)).
Proof.
  intros Haccess Hk Hgo Hstop. unfold conversion_worker. cbv zeta.
  rewrite Haccess. simpl negb. cbv iota.
  match goal with
  | |- context [convert_from self ?t ?d ?f 0 ?files ?st w] =>
      pose proof (convert_from_run self t f files k 0 st w Hk Hgo Hstop) as H;
      destruct (convert_from self t d f 0 files st w) as [st' w']
  end.
  cbv zeta in H. cbn [fst snd] in H. destruct H as (_ & H2 & H3 & H4 & H5 & H6 & _).
  cbn [fst snd].
  match goal with
  | |- context [log_failures ?x] =>
      destruct (log_failures_keeps x) as (K1 & K2 & K3 & K4 & K5)
  end.
  rewrite K1, K2, K3, K4.
  cbn [outcomes progress_var converted_files failed_files log] in *.
  refine (conj H2 (conj H3 (conj H4 (conj H5 _)))).
  intros Hlt. apply K5. cbn [log_text log].
  repeat (apply in_or_app; left). now apply H6.
Qed.

Lemma conversion_worker_quiet (w : World) :
  os_access_W_OK (output_dir self) w = true ->
  delete_original_var self = false ->
  always_exits_0 ->
  never_cancelled self (file_list self) w ->
  let run := fst (conversion_worker self w) in
  Forall (fun e => quiet e = true) (log_text run) /\ failed_files run = [].
Proof.
  intros Haccess Hkeep Hok Hnever. unfold conversion_worker. cbv zeta.
  rewrite Haccess. simpl negb. cbv iota.
  match goal with
  | |- context [convert_from self ?t ?d ?f 0 ?files ?st w] =>
      assert (Hst : Forall (fun e => quiet e = true) (log_text st))
        by (cbn [log_text log started app]; repeat constructor);
      pose proof (convert_from_quiet t f files Hkeep Hok 0 st w Hnever Hst) as H;
      destruct (convert_from self t d f 0 files st w) as [st' w']
  end.
  cbv zeta in H. cbn [fst snd] in H. destruct H as [H1 H2].
  cbn [fst snd failed_files log started] in H2.
  unfold log_failures. cbn [fst snd failed_files log]. rewrite H2.
  cbn [log_text log failed_files]. split; [|exact H2].
  repeat (apply Forall_app; split); try exact H1; repeat constructor.
Qed.

End Runs.

(** ** The driver *)

Section Driver.

Context {platform : Platform} {World : Type} {environment : Environment World}.

Variable self : AudioConverterApp.

(** C7. When the conversion of a file succeeds and the delete-source flag
    is set, [os.remove] is called on the input file in the world the
    conversion left. When that call raises, the failure is written to the
    log and nothing else changes: the job stays recorded as a Success, the
    success tally counts it, the list of failed files does not grow, and
    the progress of the job is set as for any other job. *)
Theorem removal_failure_keeps_success (total_files i : nat) (output_format : str)
    (input_file output_file : str) (st : Run) (w w1 : World) :
  delete_original_var self = true ->
  convert_file self input_file w = (returned (Success output_file), w1) ->
  let ran := convert_one self total_files (delete_original_var self) output_format
                         i input_file st w in
  snd ran = snd (os_remove input_file w1)
  /\ forall e, fst (os_remove input_file w1) = Raise e ->
       outcomes (fst ran) = outcomes st ++ [(input_file, returned (Success output_file))]
       /\ converted_files (fst ran) = converted_files st + 1
       /\ failed_files (fst ran) = failed_files st
       /\ progress_var (fst ran) = progress_var st ++ [percentage i total_files]
       /\ exists header,
           log_text (fst ran)
           = log_text st
             ++ [(header, info);
                 (lit "  ✅ 转换成功", success);
                 (lit "  💾 保存位置: " ++ path_str output_file, info);
                 (lit "  ❌ 删除原文件失败: " ++ exn_str e, error)].
Proof.
  intros Hdelete Hconv ran. subst ran. rewrite convert_one_run.
  unfold after_job, job_log, convert_one. rewrite Hconv, Hdelete. simpl returned.
  cbv iota beta. destruct (os_remove input_file w1) as [removed w2].
  split; [destruct removed; reflexivity|].
  intros e He. simpl in He. subst removed.
  cbn [fst snd outcomes converted_files failed_files progress_var log_text].
  rewrite app_nil_r. repeat split. eexists. reflexivity.
Qed.

(** C9, amended. In a run over N files in which the stop button is never
    seen a progress value is set after each job, and the value after the
    job at index i is the double ((i+1)/N)*100: the quotient is rounded
    first and then scaled, which is 100*(i+1)/N up to that rounding. With
    an encoder that always exits 0 every job is a Success, in the order of
    the list; for a run over two files the progress values are 50.0 and
    then 100.0. *)
Theorem progress_after_each_job (w : World) :
  os_access_W_OK (output_dir self) w = true ->
  never_cancelled self (file_list self) w ->
  let n := List.length (file_list self) in
  let run := fst (conversion_worker self w) in
  progress_var run = map (fun i => percentage i n) (seq 0 n)
  /\ (always_exits_0 ->
      outcomes run
      = map (fun f => (f, returned (Success (output_path self f)))) (file_list self))
  /\ (n = 2 -> progress_var run = [50%float; 100%float]).
Proof.
  intros Haccess Hnever n run.
  destruct (conversion_worker_run self w n Haccess) as (H1 & H2 & _);
    [subst n; lia | exact Hnever | subst n; lia |].
  fold run in H1, H2. unfold n in H1 at 1. rewrite firstn_all in H1.
  split; [exact H2|]. split.
  - intros Hok. rewrite H1. now apply results_exit_0.
  - intros Hn. rewrite H2. fold n. rewrite Hn. reflexivity.
Qed.

End Driver.

(** ** Concrete runs *)

(** C1, as stated, fails: when the only line with "Error" names a path
    that contains "ffmpeg", the reason is EncoderError with the last line,
    which is no line that contains "Error"; and an empty standard error is
    reported as UnknownFailure with a fixed text, there being no line to
    carry. *)
Lemma encoder_error_without_error_line :
  let error_msg :=
    lit "Error opening input file /tmp/ffmpeg/a.wav." ++ nl ++ lit "Conversion failed!" in
  let env := Stub.environment (Stub.failing 1 error_msg) in
  let silent := Stub.environment (Stub.failing 1 []) in
  let self := Stub.app [] (lit "mp3") (lit "高质量 (192 kbps)") false in
  let got := fst (@convert_file Posix.platform nat env self (lit "/m/a.wav") 0) in
  contains (lit "Error") error_msg = true
  /\ got = returned (Failure (EncoderError (lit "Conversion failed!")))
  /\ (forall line, In line (split_nl error_msg) ->
                   contains (lit "Error") line = true ->
                   got <> returned (Failure (EncoderError line))
                   /\ got <> returned (Failure (EncoderError (strip line))))
  /\ fst (@convert_file Posix.platform nat silent self (lit "/m/a.wav") 0)
     = returned (Failure (UnknownFailure (lit "未知错误"))).
Proof.
  intros error_msg env silent self got.
  split; [vm_compute; reflexivity|].
  split; [vm_compute; reflexivity|].
  split; [|vm_compute; reflexivity].
  intros line Hin Hline. vm_compute in Hin.
  destruct Hin as [<-|[<-|[]]].
  - split; intros E; vm_compute in E; discriminate E.
  - vm_compute in Hline. discriminate Hline.
Qed.

(** The rule for "Permission denied", on a stub that writes it and exits 1. *)
Lemma failure_classification_witness :
  let env := Stub.environment (Stub.failing 1 (lit "out.mp3: Permission denied")) in
  let self := Stub.app [] (lit "mp3") (lit "高质量 (192 kbps)") false in
  fst (@convert_file Posix.platform nat env self (lit "/m/a.wav") 0)
  = returned (Failure PermissionDenied).
Proof.
  intros env self.
  refine (proj1 (proj2 (@failure_classification Posix.platform nat env self
                          (lit "/m/a.wav") 0 1
                          {| returncode := 1; stderr := lit "out.mp3: Permission denied" |}
                          _ _) _) _).
  - vm_compute. reflexivity.
  - discriminate.
  - vm_compute. reflexivity.
  - vm_compute. reflexivity.
Defined.

(** An encoder that runs into the timeout. *)
Lemma convert_file_outcomes_witness :
  let env := Stub.environment
               {| Stub.encoder := fun _ => Raise (TimeoutExpired (lit "timed out"));
                  Stub.removal := fun _ => Return tt;
                  Stub.writable := true; Stub.stop_after := None |} in
  let self := Stub.app [] (lit "mp3") (lit "高质量 (192 kbps)") false in
  fst (@convert_file Posix.platform nat env self (lit "/m/a.wav") 0)
  = returned (Failure Timeout).
Proof.
  intros env self.
  refine (proj1 (proj2 (proj2 (@convert_file_outcomes Posix.platform nat env self
                                 (lit "/m/a.wav") 0))) (lit "timed out") _).
  vm_compute. reflexivity.
Defined.

(** A standard error of one space and a line break, with return code 1. *)
Lemma blank_stderr_is_unexpected_error_witness :
  let env := Stub.environment (Stub.failing 1 (lit " " ++ nl)) in
  let self := Stub.app [] (lit "mp3") (lit "高质量 (192 kbps)") false in
  @convert_file Posix.platform nat env self (lit "/m/a.wav") 0
  = (returned (Failure (UnexpectedError (lit "list index out of range"))), 1).
Proof.
  intros env self.
  refine (proj1 (proj2 (proj2 (proj2
            (@blank_stderr_is_unexpected_error Posix.platform nat env self
               (lit "/m/a.wav") 0 1
               {| returncode := 1; stderr := lit " " ++ nl |} _ _ _ _))))).
  - vm_compute. reflexivity.
  - discriminate.
  - vm_compute. discriminate.
  - vm_compute. repeat constructor.
Defined.

(** flac at its high tier. *)
Lemma build_cmd_follows_profile_witness :
  In (lit "flac") format_values
  /\ In (lit "高质量 (48kHz)") (quality_values (lit "flac"))
  /\ exists t flags,
      tier_of_entry (lit "高质量 (48kHz)") = Some t
      /\ profile_flags (lit "flac") t = Some flags
      /\ forall self input_file,
          output_format_var self = lit "flac" ->
          quality_var self = lit "高质量 (48kHz)" ->
          @build_cmd Posix.platform self input_file
          = [lit "ffmpeg"; lit "-y"; lit "-i"; input_file; lit "-vn"]
              ++ profile_codec (lit "flac") ++ flags
              ++ [@output_path Posix.platform self input_file].
Proof.
  assert (Hf : In (lit "flac") format_values) by (vm_compute; tauto).
  assert (Hq : In (lit "高质量 (48kHz)") (quality_values (lit "flac")))
    by (vm_compute; tauto).
  split; [exact Hf|]. split; [exact Hq|].
  exact (@build_cmd_follows_profile Posix.platform _ _ Hf Hq).
Defined.

(** m4a: the container is forced right after the prefix. *)
Lemma build_cmd_prefix_witness :
  let self := Stub.app [] (lit "m4a") (lit "高质量 (256 kbps)") false in
  exists rest,
    @build_cmd Posix.platform self (lit "/m/a.wav")
    = [lit "ffmpeg"; lit "-y"; lit "-i"; lit "/m/a.wav"; lit "-vn"]
        ++ [lit "-vn"; lit "-f"; lit "mov"] ++ rest.
Proof.
  intros self.
  exact (proj2 (proj2 (@build_cmd_prefix Posix.platform self (lit "/m/a.wav"))
                      eq_refl)).
Defined.

(** C4, as stated, fails: lossless is no tier of mp3, yet with that entry
    selected a command line is built, with the low bitrate, and with an
    encoder that exits 0 the job is a Success. *)
Lemma off_profile_tier_is_converted :
  let self := Stub.app [] (lit "mp3") (lit "无损 (原始音质)") false in
  tier_of_entry (quality_var self) = Some lossless
  /\ profile_flags (output_format_var self) lossless = None
  /\ ~ In (quality_var self) (quality_values (output_format_var self))
  /\ @build_cmd Posix.platform self (lit "/m/a.wav")
     = [lit "ffmpeg"; lit "-y"; lit "-i"; lit "/m/a.wav"; lit "-vn";
        lit "-codec:a"; lit "libmp3lame"; lit "-b:a"; lit "64k";
        lit "/home/u/音乐/a.mp3"]
  /\ @convert_file Posix.platform nat (Stub.environment Stub.ok) self (lit "/m/a.wav") 0
     = (returned (Success (lit "/home/u/音乐/a.mp3")), 1).
Proof.
  intros self. repeat split; try (vm_compute; reflexivity).
  intros Hin. vm_compute in Hin.
  destruct Hin as [E|[E|[E|[]]]]; discriminate E.
Qed.

(** mp3 with the lossless entry is built as mp3 with its low entry. *)
Lemma off_profile_tier_falls_back_witness :
  let self := Stub.app [] (lit "mp3") (lit "无损 (原始音质)") false in
  @build_cmd Posix.platform self (lit "/m/a.wav")
  = @build_cmd Posix.platform (with_quality self (lit "低质量 (64 kbps)")) (lit "/m/a.wav").
Proof.
  intros self.
  refine (proj1 (@off_profile_tier_falls_back Posix.platform
                   (lit "mp3") (lit "无损 (原始音质)") lossless _ _ _ _
                   self (lit "/m/a.wav") eq_refl eq_refl)).
  - vm_compute. tauto.
  - vm_compute. tauto.
  - vm_compute. reflexivity.
  - vm_compute. reflexivity.
Defined.

(** C2, as stated, fails in its last clause: when the stop button is seen
    after the first of three files, the two files left over have no
    outcome, are in neither tally, and no line of the worker's log names
    them; the one line of that log that is an error or a warning is the
    cancellation warning. *)
Lemma unattempted_files_are_not_reported :
  let self := Stub.app [lit "/m/a.wav"; lit "/m/b.wav"; lit "/m/c.wav"]
                       (lit "mp3") (lit "高质量 (192 kbps)") false in
  let env := Stub.environment (Stub.stopped_after 1) in
  let run := fst (@conversion_worker Posix.platform nat env self 0) in
  @cancelled_after Posix.platform nat env self 1 (file_list self) 0
  /\ map fst (outcomes run) = [lit "/m/a.wav"]
  /\ converted_files run = 1
  /\ failed_files run = []
  /\ forallb (fun entry => negb (contains (lit "b.wav") (fst entry))
                           && negb (contains (lit "c.wav") (fst entry)))
             (log_text run) = true
  /\ filter (fun entry => negb (quiet entry)) (log_text run) = [cancel_line].
Proof.
  intros self env run. split.
  - split; [simpl; lia|]. split; [|vm_compute; reflexivity].
    intros [|j] Hj; [vm_compute; reflexivity | lia].
  - repeat split; vm_compute; reflexivity.
Qed.

(** A file that converts and cannot be removed. *)
Lemma removal_failure_keeps_success_witness :
  let self := Stub.app [lit "/m/a.wav"] (lit "mp3") (lit "高质量 (192 kbps)") true in
  let env := Stub.environment Stub.unremovable in
  let ran := @convert_one Posix.platform nat env self 1 true (lit "mp3")
                          0 (lit "/m/a.wav") started 0 in
  outcomes (fst ran) = [(lit "/m/a.wav", returned (Success (lit "/home/u/音乐/a.mp3")))]
  /\ converted_files (fst ran) = 1
  /\ failed_files (fst ran) = [].
Proof.
  intros self env ran.
  destruct (proj2 (@removal_failure_keeps_success Posix.platform nat env self 1 0
                     (lit "mp3") (lit "/m/a.wav") (lit "/home/u/音乐/a.mp3")
                     started 0 1 eq_refl
                     ltac:(vm_compute; reflexivity))
                  (Exception (lit "[Errno 13] Permission denied")) eq_refl)
    as (H1 & H2 & H3 & _).
  repeat split; assumption.
Defined.

(** C9, as stated, fails by a rounding: after the seventh of a hundred
    files the value set is the double above 7, not 7 = 100*7/100. *)
Lemma progress_is_rounded_twice :
  let self := Stub.app (repeat (lit "/m/a.wav") 100)
                       (lit "mp3") (lit "高质量 (192 kbps)") false in
  let env := Stub.environment Stub.ok in
  let run := fst (@conversion_worker Posix.platform nat env self 0) in
  100 * (6 + 1) = 7 * 100
  /\ PrimFloat.div (PrimFloat.mul (float_of_nat 100) (float_of_nat (6 + 1)))
                   (float_of_nat 100) = 7%float
  /\ nth 6 (progress_var run) 0%float = percentage 6 100
  /\ PrimFloat.eqb (nth 6 (progress_var run) 0%float) 7%float = false
  /\ PrimFloat.ltb 7%float (nth 6 (progress_var run) 0%float) = true.
Proof.
  intros self env run. repeat split; vm_compute; reflexivity.
Qed.

(** Two files, an encoder that always exits 0: 50.0 and then 100.0. *)
Lemma progress_after_each_job_witness :
  let self := Stub.app [lit "/m/a.wav"; lit "/m/b.wav"]
                       (lit "mp3") (lit "高质量 (192 kbps)") false in
  let env := Stub.environment Stub.ok in
  let run := fst (@conversion_worker Posix.platform nat env self 0) in
  progress_var run = [50%float; 100%float]
  /\ outcomes run
     = [(lit "/m/a.wav", returned (Success (lit "/home/u/音乐/a.mp3")));
        (lit "/m/b.wav", returned (Success (lit "/home/u/音乐/b.mp3")))].
Proof.
  intros self env run.
  destruct (@progress_after_each_job Posix.platform nat env self 0 eq_refl)
    as (_ & H2 & H3).
  - intros j _. reflexivity.
  - fold run in H2, H3. split; [exact (H3 eq_refl)|].
    rewrite H2.
    + vm_compute. reflexivity.
    + intros cmd w. eexists. split; reflexivity.
Defined.

(** * Properties of the rest of the form *)

(** ** The search path of the encoder *)

Lemma contains_unfold (needle hay : str) :
  contains needle hay
  = (startswith needle hay
     || match hay with
        | [] => false
        | _ :: t => contains needle t
        end).
Proof. destruct hay; reflexivity. Qed.

Lemma startswith_app (p t : str) : startswith p (p ++ t) = true.
Proof.
  induction p as [|c p IH]; simpl; [reflexivity|].
  now rewrite N.eqb_refl, IH.
Qed.

Lemma contains_app_l (p t : str) : contains p (p ++ t) = true.
Proof. rewrite contains_unfold, startswith_app. reflexivity. Qed.

Lemma contains_app_r (needle x s : str) :
  contains needle s = true -> contains needle (x ++ s) = true.
Proof.
  intros H. induction x as [|c x IH]; simpl; [exact H|].
  rewrite IH. apply orb_true_r.
Qed.

Section SearchPathFacts.

Variable os_path_exists : str -> bool.
Variable os_pathsep : str.

Lemma prepend_paths_grows (paths : list str) :
  forall system_path needle,
    contains needle system_path = true ->
    contains needle (prepend_paths os_path_exists os_pathsep paths system_path) = true.
Proof.
  induction paths as [|p paths IH]; intros s needle H; simpl; [exact H|].
  apply IH.
  destruct (os_path_exists p && negb (contains p s)); [|exact H].
  rewrite app_assoc. now apply contains_app_r.
Qed.

Lemma prepend_paths_has (paths : list str) :
  forall system_path p,
    In p paths -> os_path_exists p = true ->
    contains p (prepend_paths os_path_exists os_pathsep paths system_path) = true.
Proof.
  induction paths as [|q paths IH]; intros s p Hin Hp; simpl; [destruct Hin|].
  destruct Hin as [-> | Hin]; [|now apply IH].
  apply prepend_paths_grows. rewrite Hp. simpl.
  destruct (contains p s) eqn:E; simpl; [exact E | apply contains_app_l].
Qed.

Lemma prepend_paths_nothing (paths : list str) :
  forall system_path,
    (forall p, In p paths -> os_path_exists p = true ->
               contains p system_path = true) ->
    prepend_paths os_path_exists os_pathsep paths system_path = system_path.
Proof.
  induction paths as [|q paths IH]; intros s H; simpl; [reflexivity|].
  assert (E : os_path_exists q && negb (contains q s) = false).
  { destruct (os_path_exists q) eqn:Hq; [|reflexivity].
    rewrite (H q (or_introl eq_refl) Hq). reflexivity. }
  rewrite E. apply IH. intros p Hp. apply H. now right.
Qed.

(** X1. The search path handed to the encoder ends with the search path
    that was there: nothing of it is dropped or reordered. What is put in
    front are candidate directories, each followed by [os.pathsep]: they
    are some of the candidates, taken in the order of the list and written
    in the reverse of it, so that a later candidate stands before an
    earlier one; each of them exists and did not occur in the search path
    that was there; and no existing candidate is left out of the result:
    each one occurs in it. *)
Theorem env_PATH_keeps_path {platform : Platform} (environ_get : str -> str) :
  exists added,
    env_PATH environ_get os_path_exists os_pathsep
    = List.concat (map (fun p => p ++ os_pathsep) (rev added))
        ++ environ_get (lit "PATH")
    /\ subsequence added (ffmpeg_paths environ_get)
    /\ Forall (fun p => In p (ffmpeg_paths environ_get)
                        /\ os_path_exists p = true
                        /\ contains p (environ_get (lit "PATH")) = false) added
    /\ (forall p, In p (ffmpeg_paths environ_get) ->
                  os_path_exists p = true ->
                  contains p (env_PATH environ_get os_path_exists os_pathsep) = true).
Proof.
  unfold env_PATH.
  generalize (environ_get (lit "PATH")) as system_path.
  generalize (ffmpeg_paths environ_get) as paths.
  intros paths system_path.
  assert (H : exists added,
             prepend_paths os_path_exists os_pathsep paths system_path
             = List.concat (map (fun p => p ++ os_pathsep) (rev added)) ++ system_path
             /\ subsequence added paths
             /\ Forall (fun p => In p paths
                                 /\ os_path_exists p = true
                                 /\ contains p system_path = false) added).
  { revert system_path.
    induction paths as [|q paths IH]; intros s; simpl.
    - exists []. split; [reflexivity | split; constructor].
    - destruct (os_path_exists q && negb (contains q s)) eqn:E.
      + apply andb_true_iff in E. destruct E as [Hq Hs].
        apply negb_true_iff in Hs.
        destruct (IH (q ++ os_pathsep ++ s)) as [added (Heq & Hsub & Hall)].
        exists (q :: added). split; [|split].
        * rewrite Heq. simpl. rewrite map_app, concat_app. simpl.
          rewrite app_nil_r, <- !app_assoc. reflexivity.
        * now apply sub_take.
        * constructor; [repeat split; [now left | exact Hq | exact Hs]|].
          eapply Forall_impl; [|exact Hall]. intros p (Hin & Hp & Hc).
          repeat split; [now right | exact Hp |].
          destruct (contains p s) eqn:Hps; [|reflexivity].
          rewrite app_assoc in Hc. now rewrite (contains_app_r p _ s Hps) in Hc.
      + destruct (IH s) as [added (Heq & Hsub & Hall)].
        exists added. split; [exact Heq | split; [now apply sub_skip|]].
        eapply Forall_impl; [|exact Hall]. intros p (Hin & Hp & Hc).
        repeat split; [now right | exact Hp | exact Hc]. }
  destruct H as [added (Heq & Hsub & Hall)].
  exists added. refine (conj Heq (conj Hsub (conj Hall _))).
  intros p Hin Hp. now apply prepend_paths_has.
Qed.

(** X2. A candidate directory that already occurs in the search path, be
    it inside a longer entry, is not put in front again: after the loop
    every existing candidate occurs in the search path, and running the
    loop on its own result changes nothing. *)
Theorem prepend_paths_idempotent (paths : list str) (system_path : str) :
  let prepared := prepend_paths os_path_exists os_pathsep paths system_path in
  (forall p, In p paths -> os_path_exists p = true -> contains p prepared = true)
  /\ prepend_paths os_path_exists os_pathsep paths prepared = prepared.
Proof.
  intros prepared. split.
  - intros p Hin Hp. now apply prepend_paths_has.
  - apply prepend_paths_nothing. intros p Hin Hp. now apply prepend_paths_has.
Qed.

End SearchPathFacts.

(** ** Dropped paths *)

Lemma lstrip_Forall (P : N -> Prop) (s : str) : Forall P s -> Forall P (lstrip s).
Proof.
  induction 1 as [|c s Hc Hs IH]; simpl; [constructor|].
  destruct (isspace c); [exact IH | now constructor].
Qed.

Lemma strip_Forall (P : N -> Prop) (s : str) : Forall P s -> Forall P (strip s).
Proof.
  intros H. unfold strip, rstrip.
  apply Forall_rev, lstrip_Forall, Forall_rev, lstrip_Forall, H.
Qed.

Lemma split_ws_words (s : str) :
  Forall (Forall (fun c => isspace c = false)) (split_ws s).
Proof.
  induction s as [|c r IH]; simpl; [constructor|].
  destruct (isspace c) eqn:Hc; [exact IH|].
  destruct r as [|d r']; [repeat constructor; exact Hc|].
  destruct (isspace d) eqn:Hd.
  - constructor; [repeat constructor; exact Hc | exact IH].
  - destruct (split_ws (d :: r')) as [|word words].
    + repeat constructor. exact Hc.
    + inversion IH; subst. constructor; [constructor|]; assumption.
Qed.

Lemma split_at_absent (sep : N) (s : str) : ~ In sep s -> split_at sep s = [s].
Proof.
  induction s as [|c s IH]; intros H; simpl; [reflexivity|].
  destruct (c =? sep)%N eqn:E.
  - apply N.eqb_eq in E. exfalso. apply H. now left.
  - rewrite IH; [reflexivity|]. intros Hin. apply H. now right.
Qed.

Lemma split_at_app (sep : N) (a r : str) :
  ~ In sep a -> split_at sep (a ++ sep :: r) = a :: split_at sep r.
Proof.
  induction a as [|c a IH]; intros H; simpl.
  - now rewrite N.eqb_refl.
  - destruct (c =? sep)%N eqn:E.
    + apply N.eqb_eq in E. exfalso. apply H. now left.
    + rewrite IH; [reflexivity|]. intros Hin. apply H. now right.
Qed.

Lemma lstrip_snoc (s : str) (c : N) :
  isspace c = false -> lstrip (s ++ [c]) = lstrip s ++ [c].
Proof.
  intros Hc. induction s as [|d s IH]; simpl.
  - now rewrite Hc.
  - destruct (isspace d); [exact IH | reflexivity].
Qed.

Lemma endswith_last (c : N) (s : str) : endswith [c] (s ++ [c]) = true.
Proof.
  unfold endswith. rewrite rev_app_distr. simpl. now rewrite N.eqb_refl.
Qed.

Lemma endswith_absent (c : N) (s : str) : ~ In c s -> endswith [c] s = false.
Proof.
  intros H. unfold endswith. simpl.
  destruct (rev s) as [|d r] eqn:E; [reflexivity|].
  destruct (c =? d)%N eqn:Hd; [|reflexivity].
  apply N.eqb_eq in Hd. subst d. exfalso. apply H.
  apply in_rev. rewrite E. now left.
Qed.

Lemma strip_after_space (c : N) (s : str) :
  isspace c = false -> strip (32%N :: c :: s) = c :: rstrip s.
Proof.
  intros Hc. unfold strip. simpl lstrip.
  change (isspace 32) with true. cbv iota. rewrite Hc.
  unfold rstrip. simpl rev. rewrite (lstrip_snoc _ _ Hc), rev_app_distr.
  reflexivity.
Qed.

(** X3. Where [os.name] is not [nt] the text of a drop is cut at white
    space, also inside a path wrapped in braces: no path [on_drop] goes on
    to test is empty or holds a white-space character, so a dropped file or
    folder whose path has a space in it is never tested under its own
    path. This is about the paths cut from the text of the drop: the files
    [os.walk] finds under a dropped folder are added under the paths they
    have, with or without spaces. *)
Theorem dropped_paths_have_no_space (data p : str) :
  In p (dropped_paths false data) ->
  p <> [] /\ Forall (fun c => isspace c = false) p.
Proof.
  unfold dropped_paths. intros H.
  apply filter_In in H. destruct H as [Hin Hp]. split.
  - now destruct p.
  - apply in_map_iff in Hin. destruct Hin as [word [<- Hword]].
    apply strip_Forall.
    pose proof (split_ws_words
                  (if startswith (lit "{") data && endswith (lit "}") data
                   then slice_1_m1 data else data)) as Hall.
    rewrite Forall_forall in Hall. now apply Hall.
Qed.

(** X4. Where [os.name] is [nt] the text of a drop is cut at closing
    braces only. A text without a closing brace, such as several paths
    separated by spaces, is tested as one path; of two paths each wrapped in
    braces the first is tested as it is and the second with its opening
    brace still in front. *)
Theorem dropped_paths_nt :
  (forall data, ~ In 125%N data ->
                dropped_paths true data = filter nonempty [strip data])
  /\ (forall a b, ~ In 125%N a -> ~ In 125%N b ->
                  dropped_paths true (lit "{" ++ a ++ lit "} {" ++ b ++ lit "}")
                  = filter nonempty [strip a; lit "{" ++ rstrip b]).
Proof.
  split.
  - intros data H. unfold dropped_paths.
    replace (lit "}") with [125%N] by (vm_compute; reflexivity).
    rewrite (endswith_absent _ _ H), andb_false_r, (split_at_absent _ _ H).
    reflexivity.
  - intros a b Ha Hb. unfold dropped_paths.
    replace (lit "{") with [123%N] by (vm_compute; reflexivity).
    replace (lit "}") with [125%N] by (vm_compute; reflexivity).
    replace (lit "} {") with [125%N; 32%N; 123%N] by (vm_compute; reflexivity).
    assert (E : [123%N] ++ a ++ [125%N; 32%N; 123%N] ++ b ++ [125%N]
                = (123%N :: a ++ 125%N :: 32%N :: 123%N :: b) ++ [125%N])
      by (simpl; now rewrite <- !app_assoc).
    rewrite startswith_app. rewrite E at 1. rewrite endswith_last. simpl andb.
    cbv iota. rewrite E. unfold slice_1_m1.
    rewrite <- app_comm_cons. simpl tl. rewrite removelast_last.
    rewrite (split_at_app _ _ _ Ha).
    rewrite split_at_absent.
    + simpl map. now rewrite strip_after_space.
    + intros [E'|[E'|Hin]]; [discriminate E' | discriminate E' | now apply Hb].
Qed.

(** ** The two option boxes *)

Lemma eqb_neq (a b : str) : a <> b -> eqb a b = false.
Proof.
  intros H. destruct (eqb a b) eqn:E; [|reflexivity].
  apply eqb_eq in E. contradiction.
Qed.

Section CommandLineOfForm.

Context {platform : Platform}.

Lemma build_cmd_of_entry (output_format quality : str) :
  In output_format format_values ->
  In quality (quality_values output_format) ->
  exists t flags,
    tier_of_entry quality = Some t
    /\ profile_flags output_format t = Some flags
    /\ forall self input_file,
        output_format_var self = output_format ->
        quality_var self = quality ->
        build_cmd self input_file
        = [lit "ffmpeg"; lit "-y"; lit "-i"; input_file; lit "-vn"]
            ++ profile_codec output_format ++ flags
            ++ [output_path self input_file].
Proof.
  intros Hf Hq. unfold format_values in Hf. simpl in Hf.
  destruct Hf as [<-|[<-|[<-|[<-|[<-|[<-|[<-|[]]]]]]]];
    vm_compute in Hq; destruct Hq as [<-|[<-|[<-|[]]]];
    eexists; eexists; (split; [reflexivity|]); (split; [reflexivity|]);
    intros self input_file Hformat Hquality;
    unfold build_cmd; rewrite Hformat, Hquality; reflexivity.
Qed.

Lemma form_consistent_aux (form : Form) :
  reachable form ->
  In (format_box form) format_values
  /\ quality_box_values form = quality_values (format_box form)
  /\ In (quality_box form) (quality_box_values form).
Proof.
  induction 1 as [|form form' Hreach IH Hpick].
  - vm_compute. tauto.
  - destruct IH as (Hf & Hv & Hq). destruct Hpick as [form fmt Hin | form q Hin].
    + unfold format_values in Hin. simpl in Hin.
      destruct Hin as [<-|[<-|[<-|[<-|[<-|[<-|[<-|[]]]]]]]]; vm_compute; tauto.
    + simpl. tauto.
Qed.

(** X5. Whatever the user picks in the two boxes, and in whatever order,
    the format is one of the seven of the form, the quality box offers the
    entries of that format, and the selected quality is one of them. *)
Theorem form_stays_consistent (form : Form) :
  reachable form ->
  In (format_box form) format_values
  /\ quality_box_values form = quality_values (format_box form)
  /\ In (quality_box form) (quality_box_values form).
Proof.
  induction 1 as [|form form' Hreach IH Hpick].
  - vm_compute. tauto.
  - destruct IH as (Hf & Hv & Hq). destruct Hpick as [form fmt Hin | form q Hin].
    + unfold format_values in Hin. simpl in Hin.
      destruct Hin as [<-|[<-|[<-|[<-|[<-|[<-|[<-|[]]]]]]]]; vm_compute; tauto.
    + simpl. tauto.
Qed.

(** X6. In every form the user can bring about the selected entry names a
    tier of the selected format, and the command line built from the form
    has the codec flags of the format and the quality flags the profile
    table gives that tier: the fall-back branches of the command line are
    never taken from the form. *)
Theorem form_builds_profile_command (form : Form) :
  reachable form ->
  exists t flags,
    tier_of_entry (quality_box form) = Some t
    /\ profile_flags (format_box form) t = Some flags
    /\ forall self input_file,
        build_cmd (with_form self form) input_file
        = [lit "ffmpeg"; lit "-y"; lit "-i"; input_file; lit "-vn"]
            ++ profile_codec (format_box form) ++ flags
            ++ [output_path (with_form self form) input_file].
Proof.
  intros Hreach.
  destruct (form_consistent_aux form Hreach) as (Hf & Hv & Hq).
  rewrite Hv in Hq.
  destruct (build_cmd_of_entry _ _ Hf Hq) as (t & flags & Ht & Hp & Hcmd).
  exists t, flags. repeat split; try assumption.
  intros self input_file. now apply Hcmd.
Qed.

End CommandLineOfForm.

Lemma not_a_format (output_format : str) :
  ~ In output_format format_values ->
  eqb output_format (lit "mp3") = false
  /\ eqb output_format (lit "flac") = false
  /\ eqb output_format (lit "wav") = false
  /\ eqb output_format (lit "ogg") = false
  /\ eqb output_format (lit "m4a") = false
  /\ eqb output_format (lit "aac") = false
  /\ eqb output_format (lit "wma") = false.
Proof.
  intros H. unfold format_values in H. simpl in H.
  repeat split; apply eqb_neq; intros ->; apply H; tauto.
Qed.

(** X7. [on_format_change] selects the first of the entries it installs,
    which is the best tier of the format: lossless for flac and wav, high
    for the others. Called again it changes nothing, and for a text that is
    no format of the form it leaves both the selection and the entries as
    they were. *)
Theorem on_format_change_selects_best (form : Form) :
  on_format_change (on_format_change form) = on_format_change form
  /\ (In (format_box form) format_values ->
      quality_box_values (on_format_change form) = quality_values (format_box form)
      /\ quality_box (on_format_change form)
         = hd [] (quality_values (format_box form))
      /\ tier_of_entry (quality_box (on_format_change form))
         = Some (if existsb (eqb (format_box form)) [lit "flac"; lit "wav"]
                 then lossless else high))
  /\ (~ In (format_box form) format_values -> on_format_change form = form).
Proof.
  assert (Hout : ~ In (format_box form) format_values -> on_format_change form = form).
  { intros H. destruct (not_a_format _ H) as (H1 & H2 & H3 & H4 & H5 & H6 & H7).
    unfold on_format_change. simpl existsb.
    now rewrite H1, H2, H3, H4, H5, H6, H7. }
  destruct (in_dec (list_eq_dec N.eq_dec) (format_box form) format_values) as [Hin | Hnot].
  - destruct form as [fmt q values]. simpl in *.
    unfold format_values in Hin. simpl in Hin.
    destruct Hin as [<-|[<-|[<-|[<-|[<-|[<-|[<-|[]]]]]]]];
      (split; [reflexivity|]); (split; [|intros H; exfalso; apply H; vm_compute; tauto]);
      intros _; repeat split; vm_compute; reflexivity.
  - split; [now rewrite (Hout Hnot), (Hout Hnot)|].
    split; [intros H; contradiction | exact Hout].
Qed.

Section Bitrate.

Context {platform : Platform}.

(** X8. For mp3, aac and wma and each of their entries the bitrate of the
    command line is what [get_quality_bitrate] returns, followed by k. For
    m4a and ogg it is not: their command lines ask for 256k, 192k or 128k
    where [get_quality_bitrate] says 192, 128 or 64. *)
Theorem get_quality_bitrate_is_for_three_formats (output_format quality : str) :
  In quality (quality_values output_format) ->
  forall self input_file,
    output_format_var self = output_format ->
    quality_var self = quality ->
    (In output_format [lit "mp3"; lit "aac"; lit "wma"] ->
     build_cmd self input_file
     = [lit "ffmpeg"; lit "-y"; lit "-i"; input_file; lit "-vn"]
         ++ profile_codec output_format
         ++ [lit "-b:a"; get_quality_bitrate self ++ lit "k"]
         ++ [output_path self input_file])
    /\ (In output_format [lit "m4a"; lit "ogg"] ->
        exists bitrate,
          build_cmd self input_file
          = [lit "ffmpeg"; lit "-y"; lit "-i"; input_file; lit "-vn"]
              ++ profile_codec output_format
              ++ [lit "-b:a"; bitrate]
              ++ [output_path self input_file]
          /\ bitrate <> get_quality_bitrate self ++ lit "k").
Proof.
  intros Hq self input_file Hformat Hquality. split; intros Hf; simpl in Hf.
  - destruct Hf as [<-|[<-|[<-|[]]]];
      vm_compute in Hq; destruct Hq as [<-|[<-|[<-|[]]]];
      unfold build_cmd, get_quality_bitrate; rewrite Hformat, Hquality; reflexivity.
  - destruct Hf as [<-|[<-|[]]];
      vm_compute in Hq; destruct Hq as [<-|[<-|[<-|[]]]];
      eexists; (split;
                [unfold build_cmd; rewrite Hformat, Hquality; reflexivity
                |unfold get_quality_bitrate; rewrite Hquality;
                 intros E; vm_compute in E; discriminate E]).
Qed.

End Bitrate.

(** ** More of the failure branch *)

Lemma lstrip_nil (s : str) :
  lstrip s = [] -> Forall (fun c => isspace c = true) s.
Proof.
  induction s as [|c r IH]; simpl; [constructor|].
  destruct (isspace c) eqn:Hc; [|discriminate].
  intros H. constructor; [exact Hc | now apply IH].
Qed.

Lemma lstrip_spaces_inv (s : str) :
  Forall (fun c => isspace c = true) (lstrip s) ->
  Forall (fun c => isspace c = true) s.
Proof.
  induction s as [|c r IH]; simpl; [constructor|].
  destruct (isspace c) eqn:Hc; [|exact (fun H => H)].
  intros H. constructor; [exact Hc | now apply IH].
Qed.

Lemma blank_spaces (l : str) :
  blank l = true -> Forall (fun c => isspace c = true) l.
Proof.
  unfold blank, strip, rstrip. intros H. apply eqb_eq in H.
  apply (f_equal (@rev N)) in H. rewrite rev_involutive in H. simpl in H.
  apply lstrip_nil, Forall_rev in H. rewrite rev_involutive in H.
  now apply lstrip_spaces_inv.
Qed.

Lemma split_nl_joins (P : N -> Prop) (s : str) :
  P 10%N -> Forall (Forall P) (split_nl s) -> Forall P s.
Proof.
  intros Hnl. induction s as [|c r IH]; simpl; [constructor|].
  destruct (c =? 10)%N eqn:E.
  - apply N.eqb_eq in E. subst c. intros H. inversion H; subst.
    constructor; [exact Hnl | now apply IH].
  - destruct (split_nl r) as [|l ls] eqn:Er; [now destruct (split_nl_nonempty r)|].
    intros H. inversion H as [|x xs Hcl Hls]; subst.
    inversion Hcl; subst. constructor; [assumption|].
    apply IH. now constructor.
Qed.

Lemma filter_nil_inv {A} (p : A -> bool) (l : list A) :
  filter p l = [] -> Forall (fun x => p x = false) l.
Proof.
  induction l as [|x l IH]; simpl; [constructor|].
  destruct (p x) eqn:E; [discriminate|].
  intros H. constructor; [exact E | now apply IH].
Qed.

Lemma spaces_match_nothing (error_msg : str) :
  Forall (fun c => isspace c = true) error_msg ->
  contains (lit "Invalid data") error_msg = false
  /\ contains (lit "Permission denied") error_msg = false
  /\ contains (lit "No space left") error_msg = false
  /\ contains (lit "Error") error_msg = false.
Proof.
  intros Hspace.
  assert (Hnot : forall needle c rest,
             needle = c :: rest -> isspace c = false ->
             contains needle error_msg = false).
  { intros needle c rest -> Hc. apply contains_not_In. now apply spaces_not_In. }
  repeat split; (eapply Hnot; [vm_compute; reflexivity | reflexivity]).
Qed.

(** X9. The classification of a standard error raises in one case only:
    a text that is not empty and holds white space alone, where it is the
    IndexError of the last-line selection. On every other text it returns
    a reason. *)
Theorem failure_message_raises_on_blank_only (error_msg : str) (e : exn) :
  failure_message error_msg = Raise e
  <-> e = IndexError
      /\ error_msg <> []
      /\ Forall (fun c => isspace c = true) error_msg.
Proof.
  split.
  - unfold failure_message.
    destruct (contains (lit "Invalid data") error_msg); [discriminate|].
    destruct (contains (lit "Permission denied") error_msg); [discriminate|].
    destruct (contains (lit "No space left") error_msg); [discriminate|].
    destruct (contains (lit "Error") error_msg).
    + destruct (find _ (split_nl error_msg)); [discriminate|].
      destruct (split_nl error_msg) eqn:E; [now destruct (split_nl_nonempty error_msg)|].
      discriminate.
    + destruct error_msg as [|c s] eqn:E; [discriminate|]. rewrite <- E.
      destruct (filter _ (split_nl error_msg)) as [|l ls] eqn:Ef; [|discriminate].
      simpl. intros H. injection H as <-. split; [reflexivity|].
      split; [rewrite E; discriminate|].
      apply split_nl_joins; [reflexivity|].
      apply filter_nil_inv in Ef.
      eapply Forall_impl; [|exact Ef]. intros l Hl. apply blank_spaces.
      change (negb (blank l) = false) in Hl. now apply negb_false_iff in Hl.
  - intros (-> & Hne & Hspace).
    destruct (spaces_match_nothing _ Hspace) as (H1 & H2 & H3 & H4).
    apply (rule_unknown_blank _ H1 H2 H3 H4 Hne).
    eapply Forall_impl; [|exact (split_nl_Forall _ _ Hspace)].
    intros l Hl. unfold blank. now rewrite (strip_spaces _ Hl).
Qed.

(** ** More of the driver *)

Section DriverEdges.

Context {platform : Platform} {World : Type} {environment : Environment World}.

Variable self : AudioConverterApp.

Lemma log_entries_text (entries : list (str * str)) :
  forall st0,
    log_text
      (fold_left
         (fun st entry =>
            log st (lit "  • " ++ fst entry ++ lit ": " ++ snd entry) error)
         entries st0)
    = log_text st0
      ++ map (fun entry => (lit "  • " ++ fst entry ++ lit ": " ++ snd entry, error))
             entries.
Proof.
  induction entries as [|y entries IH]; intros st0; simpl.
  - now rewrite app_nil_r.
  - rewrite IH. simpl. now rewrite <- app_assoc.
Qed.

Lemma log_failures_text (st : Run) :
  log_text (log_failures st) = log_text st ++ failure_report (failed_files st).
Proof.
  unfold log_failures, failure_report.
  destruct (failed_files st) as [|x l]; [now rewrite app_nil_r|].
  rewrite log_entries_text. simpl. now rewrite <- app_assoc.
Qed.

Lemma conversion_worker_world (w : World) (k : nat) :
  os_access_W_OK (output_dir self) w = true ->
  k <= List.length (file_list self) ->
  (forall j, j < k -> is_converting (boundary self j (file_list self) w) = true) ->
  (k < List.length (file_list self) ->
   is_converting (boundary self k (file_list self) w) = false) ->
  snd (conversion_worker self w) = boundary self k (file_list self) w.
Proof.
  intros Haccess Hk Hgo Hstop. unfold conversion_worker. cbv zeta.
  rewrite Haccess. simpl negb. cbv iota.
  match goal with
  | |- context [convert_from self ?t ?d ?f 0 ?files ?st w] =>
      pose proof (convert_from_run self t f files k 0 st w Hk Hgo Hstop) as H;
      destruct (convert_from self t d f 0 files st w) as [st' w']
  end.
  cbv zeta in H. cbn [fst snd] in H. now destruct H as (H1 & _).
Qed.

(** X10. When the output directory is not writable the run is over before
    the loop: the encoder is not started and no file is removed (the world
    is left as it was found), no file has an outcome, no progress is set,
    both tallies are empty, and the log holds the five opening lines and one
    error line that names the directory. *)
Theorem unwritable_directory_stops_run (w : World) :
  os_access_W_OK (output_dir self) w = false ->
  let ran := conversion_worker self w in
  snd ran = w
  /\ outcomes (fst ran) = []
  /\ progress_var (fst ran) = []
  /\ converted_files (fst ran) = 0
  /\ failed_files (fst ran) = []
  /\ exists opening,
      List.length opening = 5
      /\ Forall (fun e => quiet e = true) opening
      /\ log_text (fst ran)
         = opening ++ [(lit "❌ 错误: 输出目录不可写 - " ++ output_dir self, error)].
Proof.
  intros Haccess. unfold conversion_worker. cbv zeta. rewrite Haccess.
  simpl negb. cbv iota. cbn [fst snd outcomes progress_var converted_files
                             failed_files log_text log started app].
  repeat split.
  eexists [_; _; _; _; _]. split; [reflexivity|].
  split; [|reflexivity]. repeat constructor.
Qed.

(** X11. A run that gets to its loop ends its log with the summary, which
    states the two tallies, followed by the report of the failures: nothing
    when no file failed, else a heading and one line for each failed file
    with its reason, in the order the files failed. *)
Theorem log_ends_with_summary (w : World) :
  os_access_W_OK (output_dir self) w = true ->
  let run := fst (conversion_worker self w) in
  exists before,
    log_text run
    = before
      ++ summary (converted_files run) (List.length (failed_files run))
      ++ failure_report (failed_files run).
Proof.
  intros Haccess run. subst run. unfold conversion_worker. cbv zeta.
  rewrite Haccess. simpl negb. cbv iota.
  match goal with
  | |- context [convert_from self ?t ?d ?f 0 ?files ?st w] =>
      destruct (convert_from self t d f 0 files st w) as [st' w']
  end.
  cbn [fst snd].
  match goal with
  | |- context [log_failures ?x] =>
      destruct (log_failures_keeps x) as (_ & K2 & K3 & _);
      rewrite (log_failures_text x), K2, K3
  end.
  cbn [log_text log converted_files failed_files].
  exists (log_text st'). unfold summary. now rewrite <- !app_assoc.
Qed.

(** X12. When the stop button is seen after k jobs the run leaves the world
    as the k-th job left it: nothing is started or removed for the files
    that are left. The progress bar has been set k times and stays at
    (k/N)*100. *)
Theorem cancelled_run_stops_everything (w : World) (k : nat) :
  os_access_W_OK (output_dir self) w = true ->
  cancelled_after self k (file_list self) w ->
  let ran := conversion_worker self w in
  snd ran = boundary self k (file_list self) w
  /\ progress_var (fst ran)
     = map (fun j => percentage j (List.length (file_list self))) (seq 0 k)
  /\ List.length (progress_var (fst ran)) = List.length (outcomes (fst ran)).
Proof.
  intros Haccess (Hk & Hgo & Hstop) ran. subst ran.
  assert (Hle : k <= List.length (file_list self)) by lia.
  split; [apply (conversion_worker_world w k Haccess Hle Hgo); now intros _|].
  destruct (conversion_worker_run self w k Haccess Hle Hgo) as (H1 & H2 & _);
    [now intros _|].
  split; [exact H2|].
  rewrite H1, H2, length_map, length_seq.
  rewrite <- (length_map fst), results_names, length_firstn. lia.
Qed.

End DriverEdges.

(** ** Runs on record *)

Lemma convert_from_cons {platform : Platform} {World : Type}
    {environment : Environment World} (self : AudioConverterApp)
    (total_files : nat) (delete_original : bool) (output_format : str)
    (i : nat) (input_file : str) (rest : list str) (st : Run) (w : World) :
  convert_from self total_files delete_original output_format i (input_file :: rest) st w
  = if negb (is_converting w) then (log st (lit "⚠️ 转换已取消") warning, w)
    else convert_from self total_files delete_original output_format (S i) rest
           (fst (convert_one self total_files delete_original output_format
                             i input_file st w))
           (snd (convert_one self total_files delete_original output_format
                             i input_file st w)).
Proof.
  simpl. destruct (is_converting w); simpl; [|reflexivity].
  now destruct (convert_one self total_files delete_original output_format
                            i input_file st w).
Qed.

Lemma successes_of_verdicts (v : str -> bool * str) (files : list str) :
  map fst (filter succeeded (map (fun f => (f, v f)) files))
  = filter (fun f => fst (v f)) files.
Proof.
  induction files as [|f files IH]; simpl; [reflexivity|].
  unfold succeeded at 1. simpl. destruct (fst (v f)); simpl; now rewrite IH.
Qed.

Section RecorderFacts.

Context {platform : Platform}.

Variable s : Stub.script.
Variable self : AudioConverterApp.

Lemma recorded_convert_file (input_file : str) (w : Recorder.world) :
  @convert_file platform _ (Recorder.environment s) self input_file w
  = (Recorder.verdict s self input_file,
     {| Recorder.invoked :=
          Recorder.invoked w ++ [(build_cmd self input_file, 300%N)];
        Recorder.removed := Recorder.removed w |}).
Proof. reflexivity. Qed.

Lemma recorded_after_job (input_file : str) (w : Recorder.world) :
  @after_job platform _ (Recorder.environment s) self input_file w
  = {| Recorder.invoked :=
         Recorder.invoked w ++ [(build_cmd self input_file, 300%N)];
       Recorder.removed :=
         Recorder.removed w
         ++ (if fst (Recorder.verdict s self input_file) && delete_original_var self
             then [input_file] else []) |}.
Proof.
  unfold after_job, convert_one. rewrite recorded_convert_file.
  destruct (Recorder.verdict s self input_file) as [ok message].
  destruct ok, (delete_original_var self); simpl; rewrite ?app_nil_r;
    try reflexivity.
  destruct (Stub.removal s input_file); reflexivity.
Qed.

Lemma recorded_loop (limit : option nat) (total_files : nat) (output_format : str) :
  Stub.stop_after s = limit ->
  forall files i st w,
    let ran := @convert_from platform _ (Recorder.environment s) self total_files
                             (delete_original_var self) output_format i files st w in
    let done :=
      firstn (match limit with
              | Some k => Nat.min (k - List.length (Recorder.invoked w))
                                  (List.length files)
              | None => List.length files
              end) files in
    Recorder.invoked (snd ran)
    = Recorder.invoked w ++ map (fun f => (build_cmd self f, 300%N)) done
    /\ Recorder.removed (snd ran)
       = Recorder.removed w
         ++ (if delete_original_var self
             then filter (fun f => fst (Recorder.verdict s self f)) done
             else [])
    /\ outcomes (fst ran)
       = outcomes st ++ map (fun f => (f, Recorder.verdict s self f)) done.
Proof.
  intros Hlimit. induction files as [|f rest IH]; intros i st w.
  - simpl. rewrite firstn_nil. simpl.
    destruct (delete_original_var self); now rewrite !app_nil_r.
  - cbv zeta.
    rewrite (@convert_from_cons platform _ (Recorder.environment s)).
    assert (Hflag : @is_converting _ (Recorder.environment s) w
                    = match limit with
                      | Some k => List.length (Recorder.invoked w) <? k
                      | None => true
                      end) by (simpl; now rewrite Hlimit).
    rewrite Hflag.
    assert (Hgo : forall n,
               n = S (match limit with
                      | Some k => Nat.min (k - S (List.length (Recorder.invoked w)))
                                          (List.length rest)
                      | None => List.length rest
                      end) ->
               let ran := @convert_from platform _ (Recorder.environment s) self
                            total_files (delete_original_var self) output_format (S i) rest
                            (fst (@convert_one platform _ (Recorder.environment s) self total_files (delete_original_var self)
                                              output_format i f st w))
                            (snd (@convert_one platform _ (Recorder.environment s) self total_files (delete_original_var self)
                                              output_format i f st w)) in
               let done := firstn n (f :: rest) in
               Recorder.invoked (snd ran)
               = Recorder.invoked w ++ map (fun f => (@build_cmd platform self f, 300%N)) done
               /\ Recorder.removed (snd ran)
                  = Recorder.removed w
                    ++ (if delete_original_var self
                        then filter (fun f => fst (@Recorder.verdict platform s self f)) done
                        else [])
               /\ outcomes (fst ran)
                  = outcomes st ++ map (fun f => (f, @Recorder.verdict platform s self f)) done).
    { intros n ->. cbv zeta.
      destruct (IH (S i)
                   (fst (@convert_one platform _ (Recorder.environment s) self total_files (delete_original_var self)
                                     output_format i f st w))
                   (snd (@convert_one platform _ (Recorder.environment s) self total_files (delete_original_var self)
                                     output_format i f st w)))
        as (H1 & H2 & H3).
      rewrite H1, H2, H3. clear H1 H2 H3 IH.
      rewrite (@convert_one_run platform _ (Recorder.environment s)).
      cbn [fst snd outcomes]. rewrite recorded_after_job, recorded_convert_file.
      cbn [fst Recorder.invoked Recorder.removed].
      rewrite length_app, Nat.add_1_r. cbn [List.length].
      simpl firstn. simpl map. simpl filter.
      rewrite <- !app_assoc. simpl.
      repeat split.
      destruct (fst (Recorder.verdict s self f)), (delete_original_var self);
        reflexivity. }
    destruct limit as [k|].
    + destruct (List.length (Recorder.invoked w) <? k) eqn:El.
      * apply Nat.ltb_lt in El. simpl negb. cbv iota.
        apply Hgo. simpl List.length. lia.
      * apply Nat.ltb_ge in El. simpl negb. cbv iota. cbn [fst snd].
        replace (Nat.min (k - List.length (Recorder.invoked w))
                         (List.length (f :: rest))) with 0 by lia.
        simpl. destruct (delete_original_var self); now rewrite !app_nil_r.
    + simpl negb. cbv iota. apply Hgo. reflexivity.
Qed.

End RecorderFacts.

Section RecordedRuns.

Context {platform : Platform}.

Variable s : Stub.script.
Variable self : AudioConverterApp.

Lemma recorded_run :
  let ran := @conversion_worker platform _ (Recorder.environment s) self Recorder.fresh in
  let done := firstn (Recorder.attempts s (List.length (file_list self))) (file_list self) in
  if Stub.writable s then
    Recorder.invoked (snd ran) = map (fun f => (build_cmd self f, 300%N)) done
    /\ Recorder.removed (snd ran)
       = (if delete_original_var self
          then filter (fun f => fst (Recorder.verdict s self f)) done
          else [])
    /\ outcomes (fst ran) = map (fun f => (f, Recorder.verdict s self f)) done
  else
    Recorder.invoked (snd ran) = []
    /\ Recorder.removed (snd ran) = []
    /\ outcomes (fst ran) = [].
Proof.
  cbv zeta. unfold conversion_worker. cbv zeta.
  change (@os_access_W_OK _ (Recorder.environment s) (output_dir self) Recorder.fresh)
    with (Stub.writable s).
  destruct (Stub.writable s); simpl negb; cbv iota; [|repeat split].
  match goal with
  | |- context [@convert_from _ _ _ self ?t ?d ?f 0 ?files ?st Recorder.fresh] =>
      pose proof (recorded_loop s self (Stub.stop_after s) t f eq_refl
                                files 0 st Recorder.fresh) as H;
      destruct (@convert_from platform _ (Recorder.environment s) self t d f 0
                              files st Recorder.fresh) as [st' w']
  end.
  cbv zeta in H. cbn [fst snd Recorder.invoked Recorder.removed Recorder.fresh
                      List.length app outcomes log started] in H.
  assert (Ha : match Stub.stop_after s with
               | Some k => Nat.min (k - 0) (List.length (file_list self))
               | None => List.length (file_list self)
               end = Recorder.attempts s (List.length (file_list self))).
  { unfold Recorder.attempts. destruct (Stub.stop_after s); [|reflexivity].
    now rewrite Nat.sub_0_r. }
  rewrite Ha in H. destruct H as (H1 & H2 & H3). cbn [fst snd].
  match goal with
  | |- context [log_failures ?x] =>
      destruct (log_failures_keeps x) as (_ & _ & _ & K4 & _); rewrite K4
  end.
  cbn [outcomes log]. now rewrite H1, H2, H3.
Qed.

(** X13. On a recorded outside the encoder is started once for each file
    the run gets to, in the order of the list, each time with the command
    line of that file and a timeout of 300, and never for a file after the
    stop button was seen; with an output directory that is not writable it
    is not started at all. *)
Theorem encoder_runs_once_per_attempted_file :
  let ran := @conversion_worker platform _ (Recorder.environment s) self Recorder.fresh in
  Recorder.invoked (snd ran)
  = if Stub.writable s
    then map (fun f => (build_cmd self f, 300%N))
             (firstn (Recorder.attempts s (List.length (file_list self)))
                     (file_list self))
    else [].
Proof.
  pose proof recorded_run as H. cbv zeta in *.
  destruct (Stub.writable s); now destruct H as (H1 & _).
Qed.

(** X14. On a recorded outside [os.remove] is called on exactly the
    inputs whose conversion succeeded, once each and in the order of the
    list, when the delete-source flag is set, and on nothing when it is
    not: the source of a failed conversion, and of a file the run did not
    get to, is never removed. *)
Theorem only_converted_sources_are_removed :
  let ran := @conversion_worker platform _ (Recorder.environment s) self Recorder.fresh in
  Recorder.removed (snd ran)
  = if delete_original_var self
    then map fst (filter succeeded (outcomes (fst ran)))
    else [].
Proof.
  pose proof recorded_run as H. cbv zeta in *.
  destruct (Stub.writable s); destruct H as (_ & H2 & H3); rewrite H2, H3.
  - now rewrite successes_of_verdicts.
  - now destruct (delete_original_var self).
Qed.

End RecordedRuns.

(** ** Concrete cases of the above *)

(** A directory that exists is in the prepared search path. *)
Lemma prepend_paths_idempotent_witness :
  contains (lit "/opt/ffmpeg/bin")
           (prepend_paths (eqb (lit "/opt/ffmpeg/bin")) (lit ":")
                          [lit "/opt/ffmpeg/bin"] (lit "/usr/bin")) = true.
Proof.
  refine (proj1 (prepend_paths_idempotent (eqb (lit "/opt/ffmpeg/bin")) (lit ":")
                   [lit "/opt/ffmpeg/bin"] (lit "/usr/bin"))
                (lit "/opt/ffmpeg/bin") (or_introl eq_refl) _).
  vm_compute. reflexivity.
Defined.

(** A dropped path with a space in it is cut in two. *)
Lemma dropped_paths_have_no_space_witness :
  In (lit "/m/my") (dropped_paths false (lit "{/m/my song.mp3}"))
  /\ lit "/m/my" <> []
  /\ Forall (fun c => isspace c = false) (lit "/m/my").
Proof.
  assert (H : In (lit "/m/my") (dropped_paths false (lit "{/m/my song.mp3}")))
    by (vm_compute; tauto).
  split; [exact H|].
  exact (dropped_paths_have_no_space (lit "{/m/my song.mp3}") (lit "/m/my") H).
Defined.

(** Two paths without braces are one path where [os.name] is [nt]. *)
Lemma dropped_paths_nt_witness :
  dropped_paths true (lit "a b") = filter nonempty [strip (lit "a b")].
Proof.
  refine (proj1 dropped_paths_nt (lit "a b") _).
  intros H. vm_compute in H.
  destruct H as [H|[H|[H|[]]]]; discriminate H.
Defined.

(** flac picked, then its high entry. *)
Lemma form_stays_consistent_witness :
  let picked :=
    on_format_change
      {| format_box := lit "flac";
         quality_box := quality_box opening_form;
         quality_box_values := quality_box_values opening_form |} in
  let form := set_quality picked (lit "高质量 (48kHz)") (quality_box_values picked) in
  In (format_box form) format_values
  /\ quality_box_values form = quality_values (format_box form)
  /\ In (quality_box form) (quality_box_values form).
Proof.
  intros picked form. apply form_stays_consistent.
  apply (reachable_pick picked form).
  - apply (reachable_pick opening_form picked); [exact reachable_opening|].
    apply (pick_format opening_form (lit "flac")). vm_compute. tauto.
  - apply (pick_quality picked (lit "高质量 (48kHz)")). vm_compute. tauto.
Defined.

(** ogg picked: the command line of its high tier. *)
Lemma form_builds_profile_command_witness :
  let form :=
    on_format_change
      {| format_box := lit "ogg";
         quality_box := quality_box opening_form;
         quality_box_values := quality_box_values opening_form |} in
  exists t flags,
    tier_of_entry (quality_box form) = Some t
    /\ profile_flags (format_box form) t = Some flags
    /\ forall self input_file,
        @build_cmd Posix.platform (with_form self form) input_file
        = [lit "ffmpeg"; lit "-y"; lit "-i"; input_file; lit "-vn"]
            ++ profile_codec (format_box form) ++ flags
            ++ [@output_path Posix.platform (with_form self form) input_file].
Proof.
  intros form. apply (@form_builds_profile_command Posix.platform).
  eapply reachable_pick; [exact reachable_opening|].
  apply (pick_format opening_form (lit "ogg")). vm_compute. tauto.
Defined.

(** wav in the format box: the lossless entry gets selected. *)
Lemma on_format_change_selects_best_witness :
  let form := {| format_box := lit "wav";
                 quality_box := lit "低质量 (64 kbps)";
                 quality_box_values := [] |} in
  tier_of_entry (quality_box (on_format_change form)) = Some lossless.
Proof.
  intros form.
  refine (proj2 (proj2 (proj1 (proj2 (on_format_change_selects_best form)) _))).
  vm_compute. tauto.
Defined.

(** mp3 at its medium entry: 128 and 128k. *)
Lemma get_quality_bitrate_is_for_three_formats_witness :
  let self := Stub.app [] (lit "mp3") (lit "中等质量 (128 kbps)") false in
  @build_cmd Posix.platform self (lit "/m/a.wav")
  = [lit "ffmpeg"; lit "-y"; lit "-i"; lit "/m/a.wav"; lit "-vn"]
      ++ profile_codec (lit "mp3")
      ++ [lit "-b:a"; get_quality_bitrate self ++ lit "k"]
      ++ [@output_path Posix.platform self (lit "/m/a.wav")].
Proof.
  intros self.
  refine (proj1 (@get_quality_bitrate_is_for_three_formats Posix.platform
                   (lit "mp3") (lit "中等质量 (128 kbps)") _
                   self (lit "/m/a.wav") eq_refl eq_refl) _).
  - vm_compute. tauto.
  - vm_compute. tauto.
Defined.

(** One space and a line break. *)
Lemma failure_message_raises_on_blank_only_witness :
  failure_message (lit " " ++ nl) = Raise IndexError.
Proof.
  refine (proj2 (failure_message_raises_on_blank_only (lit " " ++ nl) IndexError) _).
  split; [reflexivity|]. split.
  - vm_compute. discriminate.
  - vm_compute. repeat constructor.
Defined.

(** An output directory that cannot be written. *)
Lemma unwritable_directory_stops_run_witness :
  let env := Stub.environment
               {| Stub.encoder := Stub.exits 0 []; Stub.removal := fun _ => Return tt;
                  Stub.writable := false; Stub.stop_after := None |} in
  let self := Stub.app [lit "/m/a.wav"] (lit "mp3") (lit "高质量 (192 kbps)") true in
  let ran := @conversion_worker Posix.platform nat env self 0 in
  snd ran = 0 /\ outcomes (fst ran) = [] /\ progress_var (fst ran) = [].
Proof.
  intros env self ran.
  destruct (@unwritable_directory_stops_run Posix.platform nat env self 0 eq_refl)
    as (H1 & H2 & H3 & _).
  now repeat split.
Defined.

(** One file, an encoder that fails: the log ends with the summary and the
    report of that failure. *)
Lemma log_ends_with_summary_witness :
  let env := Stub.environment (Stub.failing 1 (lit "No space left on device")) in
  let self := Stub.app [lit "/m/a.wav"] (lit "mp3") (lit "高质量 (192 kbps)") false in
  let run := fst (@conversion_worker Posix.platform nat env self 0) in
  failed_files run = [(lit "a.wav", reason_text DiskFull)]
  /\ exists before,
      log_text run
      = before ++ summary 0 1 ++ failure_report [(lit "a.wav", reason_text DiskFull)].
Proof.
  intros env self run.
  assert (Hf : failed_files run = [(lit "a.wav", reason_text DiskFull)])
    by (vm_compute; reflexivity).
  assert (Hc : converted_files run = 0) by (vm_compute; reflexivity).
  split; [exact Hf|].
  destruct (@log_ends_with_summary Posix.platform nat env self 0 eq_refl)
    as [before H].
  fold run in H. rewrite Hf, Hc in H. now exists before.
Defined.

(** Three files, the stop button seen after the first. *)
Lemma cancelled_run_stops_everything_witness :
  let self := Stub.app [lit "/m/a.wav"; lit "/m/b.wav"; lit "/m/c.wav"]
                       (lit "mp3") (lit "高质量 (192 kbps)") false in
  let env := Stub.environment (Stub.stopped_after 1) in
  let ran := @conversion_worker Posix.platform nat env self 0 in
  snd ran = 1 /\ List.length (progress_var (fst ran)) = 1.
Proof.
  intros self env ran.
  destruct (@cancelled_run_stops_everything Posix.platform nat env self 0 1 eq_refl)
    as (H1 & H2 & _).
  - split; [simpl; lia|]. split; [|vm_compute; reflexivity].
    intros [|j] Hj; [vm_compute; reflexivity | lia].
  - fold ran in H1, H2. split.
    + rewrite H1. vm_compute. reflexivity.
    + rewrite H2. reflexivity.
Defined.

(** * The batch as a whole *)

(** ** The log of a run, line by line *)

(** A line whose text does not start as the cancellation warning does is
    not that warning. *)
Ltac other_line E :=
  apply (f_equal (fun e : str * tag => hd 0%N (fst e))) in E;
  vm_compute in E; discriminate E.

Ltac other_lines H :=
  cbn [In app] in H;
  repeat (destruct H as [H|H]; [other_line H|]);
  try contradiction.

Lemma summary_no_cancel (converted failed : nat) :
  ~ In cancel_line (summary converted failed).
Proof. unfold summary. intros H. other_lines H. Qed.

Lemma failure_report_no_cancel (failed : list (str * str)) :
  ~ In cancel_line (failure_report failed).
Proof.
  unfold failure_report. destruct failed as [|x l]; [intros []|].
  intros [H|H]; [other_line H|].
  apply in_map_iff in H. destruct H as (entry & H & _). other_line H.
Qed.

Section BatchLog.

Context {platform : Platform} {World : Type} {environment : Environment World}.

Variable self : AudioConverterApp.

Lemma opening_log_no_cancel : ~ In cancel_line (opening_log self).
Proof. unfold opening_log. intros H. other_lines H. Qed.

Lemma job_log_no_cancel (total_files : nat) (output_format : str) (i : nat)
    (input_file : str) (w : World) :
  ~ In cancel_line (job_log self total_files output_format i input_file w).
Proof.
  unfold job_log.
  destruct (convert_file self input_file w) as [[ok message] w1].
  destruct ok.
  - destruct (delete_original_var self).
    + destruct (fst (os_remove input_file w1)) as [u|e]; intros H; other_lines H.
    + intros H. other_lines H.
  - intros H. other_lines H.
Qed.

Lemma job_logs_no_cancel (total_files : nat) (output_format : str)
    (files : list str) :
  forall i w, ~ In cancel_line (job_logs self total_files output_format i files w).
Proof.
  induction files as [|input_file rest IH]; intros i w; simpl; [intros []|].
  intros H. apply in_app_or in H. destruct H as [H|H].
  - exact (job_log_no_cancel _ _ _ _ _ H).
  - exact (IH _ _ H).
Qed.

Lemma boundary_firstn (files : list str) :
  forall j k w,
    j <= k -> boundary self j (firstn k files) w = boundary self j files w.
Proof.
  induction files as [|input_file rest IH]; intros j k w Hjk.
  - now rewrite firstn_nil.
  - destruct j as [|j]; [now destruct k|].
    destruct k as [|k]; [lia|]. simpl. apply IH. lia.
Qed.

Lemma job_logs_names (total_files : nat) (output_format : str) (files : list str) :
  forall i w e,
    In e (job_logs self total_files output_format i files w) ->
    exists j input_file,
      nth_error files j = Some input_file
      /\ In e (job_log self total_files output_format (i + j) input_file
                       (boundary self j files w)).
Proof.
  induction files as [|input_file rest IH]; intros i w e H; simpl in H; [destruct H|].
  apply in_app_or in H. destruct H as [H|H].
  - exists 0, input_file. rewrite Nat.add_0_r. split; [reflexivity | exact H].
  - destruct (IH _ _ _ H) as (j & f & Hj & He).
    exists (S j), f. split; [exact Hj|].
    replace (i + S j) with (S i + j) by lia. exact He.
Qed.

Lemma convert_from_log (total_files : nat) (output_format : str) (files : list str) :
  forall (k i : nat) (st : Run) (w : World),
    k <= List.length files ->
    (forall j, j < k -> is_converting (boundary self j files w) = true) ->
    (k < List.length files -> is_converting (boundary self k files w) = false) ->
    log_text (fst (convert_from self total_files (delete_original_var self)
                                output_format i files st w))
    = log_text st
      ++ job_logs self total_files output_format i (firstn k files) w
      ++ (if k <? List.length files then [cancel_line] else []).
Proof.
  induction files as [|input_file rest IH]; intros k i st w Hk Hgo Hstop.
  - simpl in Hk. assert (k = 0) as -> by lia. simpl. now rewrite app_nil_r.
  - rewrite convert_from_cons. destruct k as [|k].
    + pose proof (Hstop (Nat.lt_0_succ _)) as Hw. simpl in Hw.
      rewrite Hw. reflexivity.
    + assert (Hw : is_converting w = true) by (apply (Hgo 0); lia).
      rewrite Hw. simpl negb. cbv iota.
      rewrite convert_one_run. cbn [fst snd].
      rewrite (IH k); cbn [log_text].
      * simpl firstn. simpl job_logs. simpl List.length.
        change (S k <? S (List.length rest)) with (k <? List.length rest).
        now rewrite <- !app_assoc.
      * simpl in Hk. lia.
      * intros j Hj. apply (Hgo (S j)). lia.
      * intros Hlt. apply Hstop. simpl. lia.
Qed.

Lemma conversion_worker_log (w : World) (k : nat) :
  os_access_W_OK (output_dir self) w = true ->
  k <= List.length (file_list self) ->
  (forall j, j < k -> is_converting (boundary self j (file_list self) w) = true) ->
  (k < List.length (file_list self) ->
   is_converting (boundary self k (file_list self) w) = false) ->
  let run := fst (conversion_worker self w) in
  log_text run
  = (opening_log self
     ++ job_logs self (List.length (file_list self)) (output_format_var self) 0
                 (firstn k (file_list self)) w)
    ++ (if k <? List.length (file_list self) then [cancel_line] else [])
    ++ summary (converted_files run) (List.length (failed_files run))
    ++ failure_report (failed_files run).
Proof.
  intros Haccess Hk Hgo Hstop. unfold conversion_worker. cbv zeta.
  rewrite Haccess. simpl negb. cbv iota.
  match goal with
  | |- context [convert_from self ?t ?d ?f 0 ?files ?st w] =>
      pose proof (convert_from_log t f files k 0 st w Hk Hgo Hstop) as H;
      destruct (convert_from self t d f 0 files st w) as [st' w']
  end.
  cbn [fst snd] in *.
  match goal with
  | |- context [log_failures ?x] =>
      destruct (log_failures_keeps x) as (_ & K2 & K3 & _);
      rewrite (log_failures_text x), K2, K3
  end.
  cbn [log_text log converted_files failed_files]. rewrite H.
  cbn [log_text log started app]. unfold opening_log, summary.
  rewrite <- !app_assoc. reflexivity.
Qed.

(** C2, amended. In a run over the N files of the list every file the loop
    reaches gets exactly one outcome, in the order of the list, and the two
    tallies split those outcomes; a failed conversion is recorded and the
    loop goes on, so a run in which the stop button is never seen gives all
    N files their outcome, and the worker's log is the opening lines, the
    lines of the N jobs, the summary and the failure report, with no
    cancellation warning. When the stop button is seen after k jobs
    (k < N), exactly the first k files have an outcome and the other N-k
    have none; the worker's log is the opening lines and the lines of the
    first k jobs, then one cancellation warning, then the summary and the
    failure report: the warning occurs once, every line of a job is a line
    of one of the first k files, and the files left over have no line of
    their own. *)
Theorem batch_outcomes (w : World) :
  os_access_W_OK (output_dir self) w = true ->
  let files := file_list self in
  let run := fst (conversion_worker self w) in
  let logged k :=
    opening_log self
    ++ job_logs self (List.length files) (output_format_var self) 0 (firstn k files) w in
  let closing :=
    summary (converted_files run) (List.length (failed_files run))
    ++ failure_report (failed_files run) in
  (converted_files run = List.length (filter succeeded (outcomes run))
   /\ failed_files run
      = map failed_entry (filter (fun o => negb (succeeded o)) (outcomes run))
   /\ converted_files run + List.length (failed_files run)
      = List.length (outcomes run))
  /\ (never_cancelled self files w ->
      map fst (outcomes run) = files
      /\ outcomes run = results self files w
      /\ log_text run
         = opening_log self
           ++ job_logs self (List.length files) (output_format_var self) 0 files w
           ++ closing
      /\ ~ In cancel_line (log_text run))
  /\ (forall k, cancelled_after self k files w ->
      map fst (outcomes run) = firstn k files
      /\ outcomes run = results self (firstn k files) w
      /\ List.length (outcomes run) = k
      /\ In cancel_line (log_text run)
      /\ log_text run = logged k ++ [cancel_line] ++ closing
      /\ ~ In cancel_line (logged k)
      /\ ~ In cancel_line closing
      /\ (forall e,
             In e (job_logs self (List.length files) (output_format_var self) 0
                            (firstn k files) w) ->
             exists j input_file,
               j < k
               /\ nth_error files j = Some input_file
               /\ In e (job_log self (List.length files) (output_format_var self)
                                j input_file (boundary self j files w)))).
Proof.
  intros Haccess files run logged closing.
  assert (Hrun : forall k,
             k <= List.length files ->
             (forall j, j < k -> is_converting (boundary self j files w) = true) ->
             (k < List.length files -> is_converting (boundary self k files w) = false) ->
             outcomes run = results self (firstn k files) w
             /\ converted_files run = List.length (filter succeeded (outcomes run))
             /\ failed_files run
                = map failed_entry (filter (fun o => negb (succeeded o)) (outcomes run))
             /\ (k < List.length files -> In cancel_line (log_text run))
             /\ log_text run
                = logged k
                  ++ (if k <? List.length files then [cancel_line] else [])
                  ++ closing).
  { intros k Hk Hgo Hstop.
    destruct (conversion_worker_run self w k Haccess Hk Hgo Hstop)
      as (H1 & _ & H3 & H4 & H5).
    pose proof (conversion_worker_log w k Haccess Hk Hgo Hstop) as H6.
    fold run in H1, H3, H4, H5. rewrite H1. tauto. }
  assert (Hlogged : forall k, ~ In cancel_line (logged k)).
  { intros k H. apply in_app_or in H. destruct H as [H|H].
    - exact (opening_log_no_cancel H).
    - exact (job_logs_no_cancel _ _ _ _ _ H). }
  assert (Hclosing : ~ In cancel_line closing).
  { intros H. apply in_app_or in H. destruct H as [H|H].
    - exact (summary_no_cancel _ _ H).
    - exact (failure_report_no_cancel _ H). }
  split; [|split].
  - destruct (cancellation_cases self files w) as [Hnever | [k (Hk & Hgo & Hstop)]].
    + destruct (Hrun (List.length files)) as (_ & H3 & H4 & _);
        [lia | exact Hnever | lia |].
      refine (conj H3 (conj H4 _)).
      rewrite H3, H4, length_map. apply tally_split.
    + destruct (Hrun k) as (_ & H3 & H4 & _); [lia | exact Hgo | now intros _ |].
      refine (conj H3 (conj H4 _)).
      rewrite H3, H4, length_map. apply tally_split.
  - intros Hnever.
    destruct (Hrun (List.length files)) as (H1 & _ & _ & _ & H6);
      [lia | exact Hnever | lia |].
    rewrite Nat.ltb_irrefl in H6. cbn [app] in H6.
    rewrite firstn_all in H1. rewrite H1.
    refine (conj (results_names _ _ _) (conj eq_refl (conj _ _))).
    { rewrite H6. unfold logged. now rewrite firstn_all, <- app_assoc. }
    rewrite H6. intros H. apply in_app_or in H. destruct H as [H|H].
    + exact (Hlogged _ H).
    + exact (Hclosing H).
  - intros k (Hk & Hgo & Hstop).
    destruct (Hrun k) as (H1 & _ & _ & H5 & H6); [lia | exact Hgo | now intros _ |].
    apply Nat.ltb_lt in Hk. rewrite Hk in H6. apply Nat.ltb_lt in Hk.
    rewrite H1.
    refine (conj (results_names _ _ _) (conj eq_refl (conj _ (conj (H5 Hk)
             (conj H6 (conj (Hlogged k) (conj Hclosing _))))))).
    + rewrite <- (length_map fst), results_names, length_firstn. lia.
    + intros e He.
      destruct (job_logs_names _ _ _ _ _ _ He) as (j & f & Hj & Hin).
      exists j, f. simpl in Hin.
      rewrite nth_error_firstn in Hj.
      destruct (Nat.ltb_spec j k) as [Hjk|Hjk]; [|discriminate Hj].
      refine (conj Hjk (conj Hj _)).
      rewrite boundary_firstn in Hin by lia. exact Hin.
Qed.

End BatchLog.

(** ** Two inputs with one stem *)

Section Collisions.

Context {platform : Platform} {World : Type} {environment : Environment World}.

Variable self : AudioConverterApp.

Lemma build_cmd_shape (input_file : str) :
  exists middle,
    build_cmd self input_file
    = [lit "ffmpeg"; lit "-y"; lit "-i"; input_file; lit "-vn"]
        ++ middle ++ [output_path self input_file].
Proof.
  unfold build_cmd.
  repeat match goal with
         | |- context [if ?c then _ else _] => destruct c
         end;
    simpl;
    match goal with
    | |- exists middle, ?l = _ => exists (removelast (skipn 5 l))
    end; reflexivity.
Qed.

(** C6. The output path of an input is the output directory joined with
    the stem of the input, a dot and the format; it is the last argument of
    the command line, which asks for overwriting with -y. Two inputs with
    the same stem therefore get the same output path; in a run in which the
    encoder exits 0 both are recorded as Success with that one path, no file
    is recorded as failed and (sources being kept) no line of the log is an
    error or a warning. On an outside that keeps a record, in a run that is
    not stopped over a list with two such inputs, the encoder is started
    for the earlier one and later for the other, each time with -y and with
    that one output path as its last argument: the later run writes over
    what the earlier one wrote. *)
Theorem output_path_by_stem :
  (forall input_file,
      output_path self input_file
      = os_path_join (output_dir self)
                     (path_stem input_file ++ lit "." ++ output_format_var self)
      /\ exists middle,
          build_cmd self input_file
          = [lit "ffmpeg"; lit "-y"; lit "-i"; input_file; lit "-vn"]
              ++ middle ++ [output_path self input_file])
  /\ (forall a b, path_stem a = path_stem b ->
                  output_path self a = output_path self b)
  /\ (forall w,
         os_access_W_OK (output_dir self) w = true ->
         delete_original_var self = false ->
         always_exits_0 ->
         never_cancelled self (file_list self) w ->
         let run := fst (conversion_worker self w) in
         outcomes run
         = map (fun f => (f, returned (Success (output_path self f)))) (file_list self)
         /\ failed_files run = []
         /\ Forall (fun e => quiet e = true) (log_text run))
  /\ (forall s a b before between after,
         Stub.writable s = true ->
         Stub.stop_after s = None ->
         file_list self = before ++ a :: between ++ b :: after ->
         path_stem a = path_stem b ->
         let ran := @conversion_worker platform _ (Recorder.environment s) self
                                       Recorder.fresh in
         let started_for := map (fun f => (build_cmd self f, 300%N)) in
         exists options_a options_b,
           Recorder.invoked (snd ran)
           = started_for before
             ++ ([lit "ffmpeg"; lit "-y"; lit "-i"; a; lit "-vn"]
                   ++ options_a ++ [output_path self a], 300%N)
             :: started_for between
             ++ ([lit "ffmpeg"; lit "-y"; lit "-i"; b; lit "-vn"]
                   ++ options_b ++ [output_path self a], 300%N)
             :: started_for after).
Proof.
  assert (Hstem : forall a b, path_stem a = path_stem b ->
                              output_path self a = output_path self b).
  { intros a b H. unfold output_path. now rewrite H. }
  split; [|split; [|split]].
  - intros input_file. split; [reflexivity | apply build_cmd_shape].
  - exact Hstem.
  - intros w Haccess Hkeep Hok Hnever run.
    destruct (conversion_worker_quiet self w Haccess Hkeep Hok Hnever) as [Hq Hf].
    destruct (conversion_worker_run self w (List.length (file_list self)) Haccess)
      as (H1 & _); [lia | exact Hnever | lia |].
    fold run in Hq, Hf, H1. rewrite firstn_all in H1.
    rewrite H1, (results_exit_0 self (file_list self) Hok). tauto.
  - intros s a b before between after Hwritable Hnostop Hfiles Hab ran started_for.
    pose proof (recorded_run s self) as H. cbv zeta in H. fold ran in H.
    rewrite Hwritable in H. destruct H as (H & _).
    unfold Recorder.attempts in H. rewrite Hnostop, firstn_all, Hfiles in H.
    destruct (build_cmd_shape a) as [options_a Ha].
    destruct (build_cmd_shape b) as [options_b Hb].
    exists options_a, options_b.
    rewrite H, map_app. cbn [map]. rewrite map_app. cbn [map].
    rewrite Ha at 1. rewrite Hb at 1. now rewrite <- (Hstem a b Hab).
Qed.

End Collisions.

(** ** Concrete batches *)

(** Three files, the stop button seen after the first: one outcome, and a
    log with the cancellation warning once, between the lines of the first
    job and the summary. *)
Lemma batch_outcomes_witness :
  let self := Stub.app [lit "/m/a.wav"; lit "/m/b.wav"; lit "/m/c.wav"]
                       (lit "mp3") (lit "高质量 (192 kbps)") false in
  let env := Stub.environment (Stub.stopped_after 1) in
  let run := fst (@conversion_worker Posix.platform nat env self 0) in
  map fst (outcomes run) = [lit "/m/a.wav"]
  /\ exists before after,
      log_text run = before ++ [cancel_line] ++ after
      /\ ~ In cancel_line before
      /\ ~ In cancel_line after.
Proof.
  intros self env run.
  destruct (proj2 (proj2 (@batch_outcomes Posix.platform nat env self 0 eq_refl)) 1)
    as (H1 & _ & _ & _ & H5 & H6 & H7 & _).
  - split; [simpl; lia|]. split; [|vm_compute; reflexivity].
    intros [|j] Hj; [vm_compute; reflexivity | lia].
  - split; [exact H1|]. eexists. eexists.
    split; [exact H5|]. split; [exact H6 | exact H7].
Defined.

(** Two inputs with the stem "a": one output path, two Successes, a log
    without error or warning, and two encoder runs that end in that
    path. *)
Lemma output_path_by_stem_witness :
  let self := Stub.app [lit "/m/a.wav"; lit "/n/a.flac"]
                       (lit "mp3") (lit "高质量 (192 kbps)") false in
  let env := Stub.environment Stub.ok in
  let run := fst (@conversion_worker Posix.platform nat env self 0) in
  let ran := @conversion_worker Posix.platform _ (Recorder.environment Stub.ok) self
                                Recorder.fresh in
  @output_path Posix.platform self (lit "/m/a.wav") = lit "/home/u/音乐/a.mp3"
  /\ @output_path Posix.platform self (lit "/n/a.flac") = lit "/home/u/音乐/a.mp3"
  /\ outcomes run
     = [(lit "/m/a.wav", returned (Success (lit "/home/u/音乐/a.mp3")));
        (lit "/n/a.flac", returned (Success (lit "/home/u/音乐/a.mp3")))]
  /\ failed_files run = []
  /\ Forall (fun e => quiet e = true) (log_text run)
  /\ exists options_a options_b,
      Recorder.invoked (snd ran)
      = [([lit "ffmpeg"; lit "-y"; lit "-i"; lit "/m/a.wav"; lit "-vn"]
            ++ options_a ++ [lit "/home/u/音乐/a.mp3"], 300%N);
         ([lit "ffmpeg"; lit "-y"; lit "-i"; lit "/n/a.flac"; lit "-vn"]
            ++ options_b ++ [lit "/home/u/音乐/a.mp3"], 300%N)].
Proof.
  intros self env run ran.
  pose proof (@output_path_by_stem Posix.platform nat env self) as (H1 & H2 & H3 & H4).
  assert (Ha : @output_path Posix.platform self (lit "/m/a.wav") = lit "/home/u/音乐/a.mp3")
    by (vm_compute; reflexivity).
  refine (conj Ha (conj _ _)).
  - rewrite <- Ha. symmetry. apply H2. vm_compute. reflexivity.
  - destruct (H3 0) as (K1 & K2 & K3).
    + reflexivity.
    + reflexivity.
    + intros cmd w. eexists. split; reflexivity.
    + intros j _. reflexivity.
    + fold run in K1, K2, K3. refine (conj _ (conj K2 (conj K3 _))).
      * rewrite K1. vm_compute. reflexivity.
      * destruct (H4 Stub.ok (lit "/m/a.wav") (lit "/n/a.flac") [] [] [])
          as (options_a & options_b & K).
        -- reflexivity.
        -- reflexivity.
        -- reflexivity.
        -- vm_compute. reflexivity.
        -- exists options_a, options_b. fold ran in K. rewrite K, Ha. reflexivity.
Defined.
